(** * gas-meter-reader: the reading pipeline of [internal/genai/genai.go]

    A shallow embedding of [ReadGasGuagePic], [guessAmbiouousDigits] and
    [containsOnly], with the Go string primitives they rely on, and the
    properties of the two-stage extraction pipeline proved over it.

    Go strings are byte sequences: they are modelled as [string], one
    [ascii] per byte.  Runes are [Z] (Go's [int32]). *)

From Stdlib Require Import ZArith List String Ascii Bool Lia QArith.
Import ListNotations.

Local Open Scope string_scope.
Local Open Scope Z_scope.

(** ** Go's string primitives *)

Module GoString.

Definition rune := Z.

(** The value of a byte, and Go's conversion [byte(x)] (truncation to
    the low eight bits). *)
Definition byte_val (b : ascii) : Z := Z.of_N (N_of_ascii b).
Definition to_byte (x : Z) : ascii := ascii_of_N (Z.to_N (Z.land x 0xFF)).

(** [uint32(r)] for an [int32] rune. *)
Definition uint32 (r : Z) : Z := r mod 2 ^ 32.

(** Constants of [unicode/utf8] (and of [runtime/utf8.go]). *)
Definition RuneError : rune := 0xFFFD.
Definition RuneSelf : Z := 0x80.
Definition MaxRune : rune := 0x10FFFF.
Definition surrogateMin : Z := 0xD800.
Definition surrogateMax : Z := 0xDFFF.
Definition t1 : Z := 0x00.
Definition tx : Z := 0x80.
Definition t2 : Z := 0xC0.
Definition t3 : Z := 0xE0.
Definition t4 : Z := 0xF0.
Definition t5 : Z := 0xF8.
Definition maskx : Z := 0x3F.
Definition mask2 : Z := 0x1F.
Definition mask3 : Z := 0x0F.
Definition mask4 : Z := 0x07.
Definition rune1Max : Z := 0x7F.
Definition rune2Max : Z := 0x7FF.
Definition rune3Max : Z := 0xFFFF.
Definition locb : Z := 0x80.
Definition hicb : Z := 0xBF.

Definition is_cont (b : ascii) : bool :=
  (locb <=? byte_val b) && (byte_val b <=? hicb).

(** [decoderune]: the rune that starts a non-empty string and the number
    of bytes it takes.  A byte below [RuneSelf] is itself; an invalid or
    truncated sequence gives [RuneError] and width 1. *)
Definition decoderune (s : string) : rune * nat :=
  match s with
  | EmptyString => (RuneError, 1%nat)
  | String b0 s1 =>
    let s0 := byte_val b0 in
    if s0 <? RuneSelf then (s0, 1%nat)
    else if (t2 <=? s0) && (s0 <? t3) then
      match s1 with
      | String b1 _ =>
        if is_cont b1 then
          let r := Z.lor (Z.shiftl (Z.land s0 mask2) 6)
                         (Z.land (byte_val b1) maskx) in
          if rune1Max <? r then (r, 2%nat) else (RuneError, 1%nat)
        else (RuneError, 1%nat)
      | _ => (RuneError, 1%nat)
      end
    else if (t3 <=? s0) && (s0 <? t4) then
      match s1 with
      | String b1 (String b2 _) =>
        if is_cont b1 && is_cont b2 then
          let r := Z.lor (Z.lor (Z.shiftl (Z.land s0 mask3) 12)
                                (Z.shiftl (Z.land (byte_val b1) maskx) 6))
                         (Z.land (byte_val b2) maskx) in
          if (rune2Max <? r)
             && negb ((surrogateMin <=? r) && (r <=? surrogateMax))
          then (r, 3%nat) else (RuneError, 1%nat)
        else (RuneError, 1%nat)
      | _ => (RuneError, 1%nat)
      end
    else if (t4 <=? s0) && (s0 <? t5) then
      match s1 with
      | String b1 (String b2 (String b3 _)) =>
        if is_cont b1 && is_cont b2 && is_cont b3 then
          let r := Z.lor (Z.lor (Z.lor
                     (Z.shiftl (Z.land s0 mask4) 18)
                     (Z.shiftl (Z.land (byte_val b1) maskx) 12))
                     (Z.shiftl (Z.land (byte_val b2) maskx) 6))
                     (Z.land (byte_val b3) maskx) in
          if (rune3Max <? r) && (r <=? MaxRune)
          then (r, 4%nat) else (RuneError, 1%nat)
        else (RuneError, 1%nat)
      | _ => (RuneError, 1%nat)
      end
    else (RuneError, 1%nat)
  end.

(** [for _, c := range s]: the runes the loop yields, in order.  [skip]
    counts the bytes still covered by the rune decoded last. *)
Fixpoint range_from (skip : nat) (s : string) : list rune :=
  match s with
  | EmptyString => []
  | String _ s' =>
    match skip with
    | S k => range_from k s'
    | O => let (r, w) := decoderune s in r :: range_from (Nat.pred w) s'
    end
  end.

Definition range (s : string) : list rune := range_from 0 s.

(** [string(r)] for a rune: its UTF-8 encoding ([encoderune]); a value
    that is no Unicode code point is encoded as [RuneError]. *)
Definition encode3 (r : rune) : string :=
  String (to_byte (Z.lor t3 (byte_val (to_byte (Z.shiftr r 12)))))
 (String (to_byte (Z.lor tx (Z.land (byte_val (to_byte (Z.shiftr r 6))) maskx)))
 (String (to_byte (Z.lor tx (Z.land (byte_val (to_byte r)) maskx)))
  EmptyString)).

Definition string_of_rune (r : rune) : string :=
  let i := uint32 r in
  if i <=? rune1Max then String (to_byte r) EmptyString
  else if i <=? rune2Max then
    String (to_byte (Z.lor t2 (byte_val (to_byte (Z.shiftr r 6)))))
   (String (to_byte (Z.lor tx (Z.land (byte_val (to_byte r)) maskx)))
    EmptyString)
  else if (MaxRune <? i) || ((surrogateMin <=? i) && (i <=? surrogateMax))
  then encode3 RuneError
  else if i <=? rune3Max then encode3 r
  else
    String (to_byte (Z.lor t4 (byte_val (to_byte (Z.shiftr r 18)))))
   (String (to_byte (Z.lor tx (Z.land (byte_val (to_byte (Z.shiftr r 12))) maskx)))
   (String (to_byte (Z.lor tx (Z.land (byte_val (to_byte (Z.shiftr r 6))) maskx)))
   (String (to_byte (Z.lor tx (Z.land (byte_val (to_byte r)) maskx)))
    EmptyString))).

(** [strings.HasPrefix] and [strings.Contains]: [substr] occurs in [s]
    as a run of consecutive bytes. *)
Definition HasPrefix (s pre : string) : bool := String.prefix pre s.

Fixpoint Contains (s substr : string) : bool :=
  HasPrefix s substr
  || match s with
     | EmptyString => false
     | String _ s' => Contains s' substr
     end.

(** [fmt.Sprintf] with string operands, for the verbs the program's
    formats use: [%s] and [%v] print the next operand (a string, or an
    error's message), [%%] a percent sign; every other byte of the format
    is copied.  A verb without operand prints [%!v(MISSING)], a lone
    final [%] prints [%!(NOVERB)], operands left over are reported at the
    end.  Flags, widths and the other verbs are not modelled: no format
    of the program has one. *)
Fixpoint extra_operands (args : list string) : string :=
  match args with
  | [] => EmptyString
  | [a] => "string=" ++ a
  | a :: args' => "string=" ++ a ++ ", " ++ extra_operands args'
  end.

Definition Sprintf_end (args : list string) : string :=
  match args with
  | [] => EmptyString
  | _ => "%!(EXTRA " ++ extra_operands args ++ ")"
  end.

Fixpoint Sprintf (format : string) (args : list string) : string :=
  match format with
  | EmptyString => Sprintf_end args
  | String "%" EmptyString => "%!(NOVERB)" ++ Sprintf_end args
  | String "%" (String "%" rest) => String "%" (Sprintf rest args)
  | String "%" (String v rest) =>
    if (Ascii.eqb v "s" || Ascii.eqb v "v")%bool then
      match args with
      | a :: args' => a ++ Sprintf rest args'
      | [] => "%!" ++ String v "(MISSING)" ++ Sprintf rest []
      end
    else String "%" (String v (Sprintf rest args))
  | String c rest => String c (Sprintf rest args)
  end.

End GoString.
Import GoString.

(** ** [containsOnly] *)

(** The body of the loop over the runes of [s]: the first rune whose
    encoding does not occur in [chars] returns [false]. *)
Fixpoint containsOnly_loop (cs : list rune) (chars : string) : bool :=
  match cs with
  | [] => true
  | c :: cs' =>
    if negb (Contains chars (string_of_rune c)) then false
    else containsOnly_loop cs' chars
  end.

Definition containsOnly (s chars : string) : bool :=
  containsOnly_loop (range s) chars.

(** ** Errors and results *)

(** A Go [error] is modelled by its message ([err.Error()]);
    [fmt.Errorf] formats one. *)
Definition error := string.

Inductive result (A : Type) : Type :=
| Ok (a : A)
| Err (e : error).
Arguments Ok {A} a.
Arguments Err {A} e.

Definition Errorf (format : string) (args : list string) : error :=
  Sprintf format args.

(** The four failures of the pipeline, by the message the code builds. *)
Definition StagingFailed (cause : error) : error :=
  Errorf "failed to upload: %v" [cause].
Definition InferenceFailed (cause : error) : error :=
  Errorf "failed to analyze: %v" [cause].
Definition ResolutionInferenceFailed (cause : error) : error :=
  Errorf "failed to generate: %v" [cause].
Definition InvalidInput (ambiguousValueString : string) : error :=
  Errorf "ambious value string, %s is not valid" [ambiguousValueString].
Definition DisambiguationFailed (cause : error) : error :=
  Errorf "failed to guess ambiguous digits: %v" [cause].

(** ** Data *)

Record GasMeterReadResult : Type := {
  Read : string;
  Date : string;
  ReadAt : Z;
  ItTakes : string
}.

Record Client : Type := {
  model : string;
  systemPrompt : string;
  promptForImg : string;
  lastRead : string
}.

Definition set_lastRead (c : Client) (v : string) : Client :=
  {| model := model c; systemPrompt := systemPrompt c;
     promptForImg := promptForImg c; lastRead := v |}.

(** What the code uses of the provider's types. *)
Record File : Type := { Name : string; URI : string }.
Record UploadFileConfig : Type := { MIMEType : string; DisplayName : string }.
Record GenerateContentConfig : Type := { TopK : Q; Temperature : Q }.

Inductive Part : Type :=
| TextPart (text : string)
| MediaPart (mimeType uri : string).

Inductive Message : Type :=
| SystemMessage (parts : list Part)
| UserMessage (parts : list Part).

Record Request : Type := {
  req_model : string;
  req_messages : list Message;
  req_config : GenerateContentConfig
}.

(** A text response; [Text] is [resp.Text()]. *)
Record ModelResponse : Type := { Text : string }.

(** ** The outside world

    The Files API, the inference gateway and the clock answer as the
    world decides.  A run calls each remote operation at most once, so an
    answer per request describes every behaviour of a run. *)
Record World : Type := {
  time_Now : nat -> Z;
  Duration_String : Z -> string;
  Files_Upload : string -> UploadFileConfig -> result File;
  Files_Delete : string -> result unit;
  genkit_GenerateData : Request -> result GasMeterReadResult;
  genkit_Generate : Request -> result ModelResponse
}.

(** What a run does to the outside, in order, and its assignments to
    [c.lastRead]. *)
Inductive event : Type :=
| EvUpload (jpg : string) (cfg : UploadFileConfig)
| EvDelete (fileName : string)
| EvGenerateData (req : Request)
| EvGenerate (req : Request)
| EvLog (msg : string)
| EvSetLastRead (v : string).

Record state : Type := {
  client : Client;
  clock : nat;
  trace : list event
}.

(** ** A state monad for the method bodies *)

Definition M (A : Type) : Type := state -> A * state.

Definition ret {A} (a : A) : M A := fun st => (a, st).
Definition bind {A B} (m : M A) (k : A -> M B) : M B :=
  fun st => let (a, st') := m st in k a st'.

Declare Scope go_scope.
Delimit Scope go_scope with go.
Notation "x <- m ;; k" := (bind m (fun x => k))
  (at level 61, m at next level, right associativity) : go_scope.
Notation "m ;; k" := (bind m (fun _ => k))
  (at level 61, right associativity) : go_scope.
Local Open Scope go_scope.

Definition emit (e : event) : M unit :=
  fun st => (tt, {| client := client st; clock := clock st;
                    trace := trace st ++ [e] |}).

Definition get_client : M Client := fun st => (client st, st).

Definition store_lastRead (v : string) : M unit :=
  fun st => (tt, {| client := set_lastRead (client st) v; clock := clock st;
                    trace := trace st ++ [EvSetLastRead v] |}).

(** The format of the resolution prompt.  [dquote] is the byte 0x22 that
    surrounds the second verb. *)
Definition dquote : string := String (ascii_of_nat 34) EmptyString.

Definition fixAmbiguousPromptFmt : string :=
  "The value “%s” represents the output of a analog-meter-reading analysis performed on an image.
Uncertain digits within the reading are denoted by the “?” character.

Using the previously recorded meter value " ++ dquote ++ "%s" ++ dquote ++ " as a reference (only if it is not empty),
infer and replace the “?” characters to estimate the most probable complete reading.

Instructions:
- Return a string with the exact same length as the input value.
- Output only the predicted value, without any explanations or additional text.
".

Section Program.

Variable w : World.

Definition now : M Z :=
  fun st => (time_Now w (clock st),
             {| client := client st; clock := S (clock st);
                trace := trace st |}).

Definition upload (jpg : string) (cfg : UploadFileConfig) : M (result File) :=
  emit (EvUpload jpg cfg) ;; ret (Files_Upload w jpg cfg).

Definition delete (fileName : string) : M (result unit) :=
  emit (EvDelete fileName) ;; ret (Files_Delete w fileName).

Definition generateData (req : Request) : M (result GasMeterReadResult) :=
  emit (EvGenerateData req) ;; ret (genkit_GenerateData w req).

Definition generate (req : Request) : M (result ModelResponse) :=
  emit (EvGenerate req) ;; ret (genkit_Generate w req).

Definition log_Printf (format : string) (args : list string) : M unit :=
  emit (EvLog (Sprintf format args)).

(** [TopK: float32Ptr(10), Temperature: float32Ptr(0.1)] *)
Definition samplingConfig : GenerateContentConfig :=
  {| TopK := 10; Temperature := 1 # 10 |}.

(** The alphabet of an ambiguous reading. *)
Definition alphabet : string := ".?0123456789".

Definition resolutionRequest (c : Client) (ambiguousValueString : string)
  : Request :=
  {| req_model := model c;
     req_messages :=
       [UserMessage
          [TextPart (Sprintf fixAmbiguousPromptFmt
                             [ambiguousValueString; lastRead c])]];
     req_config := samplingConfig |}.

Definition guessAmbiouousDigits (ambiguousValueString : string)
  : M (result string) :=
  if negb (containsOnly ambiguousValueString alphabet) then
    ret (Err (Errorf "ambious value string, %s is not valid"
                     [ambiguousValueString]))
  else
    c <- get_client ;;
    r <- generate (resolutionRequest c ambiguousValueString) ;;
    match r with
    | Err err => ret (Err (Errorf "failed to generate: %v" [err]))
    | Ok resp => ret (Ok (Text resp))
    end.

Definition extractionRequest (c : Client) (file : File) : Request :=
  {| req_model := model c;
     req_messages :=
       [SystemMessage [TextPart (systemPrompt c)];
        UserMessage [MediaPart "image/jpeg" (URI file);
                     TextPart (promptForImg c)]];
     req_config := samplingConfig |}.

(** Lines 121-126: the result is stamped, [c.lastRead] is assigned. *)
Definition finish (start : Z) (out : GasMeterReadResult) (read : string)
  : M (result GasMeterReadResult) :=
  t <- now ;;
  readAt <- now ;;
  let out' := {| Read := read; Date := Date out; ReadAt := readAt;
                 ItTakes := Duration_String w (t - start) |} in
  store_lastRead (Read out') ;;
  ret (Ok out').

(** Lines 90-126: what runs between the upload and the deferred call. *)
Definition afterUpload (start : Z) (file : File)
  : M (result GasMeterReadResult) :=
  c <- get_client ;;
  r <- generateData (extractionRequest c file) ;;
  match r with
  | Err err => ret (Err (Errorf "failed to analyze: %v" [err]))
  | Ok out =>
    if Contains (Read out) "?" then
      log_Printf "Ambiguous digits found in the reading: %s" [Read out] ;;
      g <- guessAmbiouousDigits (Read out) ;;
      match g with
      | Err err =>
        ret (Err (Errorf "failed to guess ambiguous digits: %v" [err]))
      | Ok read => finish start out read
      end
    else finish start out (Read out)
  end.

(** [jpg] is what [jpgReader] delivers.  The deferred function runs when
    the body after the upload has returned; what [Files.Delete] returns
    is dropped. *)
Definition ReadGasGuagePic (jpg : string) : M (result GasMeterReadResult) :=
  start <- now ;;
  f <- upload jpg {| MIMEType := "image/jpeg";
                     DisplayName := "Gas Meter Image" |} ;;
  match f with
  | Err err => ret (Err (Errorf "failed to upload: %v" [err]))
  | Ok file =>
    r <- afterUpload start file ;;
    delete (Name file) ;;
    ret r
  end.

End Program.

(** * Vocabulary of the properties *)

(** ** The decoder, in arithmetic

    [decoded s r w]: the cases of [decoderune] on a non-empty [s], with the
    bit operations written as sums. *)

Inductive decoded : string -> rune -> nat -> Prop :=
| dec_ascii b s :
    byte_val b < 0x80 -> decoded (String b s) (byte_val b) 1
| dec_invalid b s :
    0x80 <= byte_val b -> decoded (String b s) RuneError 1
| dec_two b0 b1 s r :
    0xC0 <= byte_val b0 < 0xE0 -> is_cont b1 = true ->
    r = (byte_val b0 mod 32) * 64 + byte_val b1 mod 64 ->
    0x7F < r ->
    decoded (String b0 (String b1 s)) r 2
| dec_three b0 b1 b2 s r :
    0xE0 <= byte_val b0 < 0xF0 -> is_cont b1 = true -> is_cont b2 = true ->
    r = (byte_val b0 mod 16) * 4096 + (byte_val b1 mod 64) * 64
        + byte_val b2 mod 64 ->
    0x7FF < r -> ~ (0xD800 <= r <= 0xDFFF) ->
    decoded (String b0 (String b1 (String b2 s))) r 3
| dec_four b0 b1 b2 b3 s r :
    0xF0 <= byte_val b0 < 0xF8 ->
    is_cont b1 = true -> is_cont b2 = true -> is_cont b3 = true ->
    r = (byte_val b0 mod 8) * 262144 + (byte_val b1 mod 64) * 4096
        + (byte_val b2 mod 64) * 64 + byte_val b3 mod 64 ->
    0xFFFF < r <= 0x10FFFF ->
    decoded (String b0 (String b1 (String b2 (String b3 s)))) r 4.

(** A Unicode scalar value: a code point that is no surrogate. *)
Definition scalar (r : rune) : Prop :=
  0 <= r <= 0x10FFFF /\ ~ (0xD800 <= r <= 0xDFFF).

(** ** The encoder, in arithmetic

    [encoded r] is [string_of_rune r] for a scalar value [r]. *)

Definition cont_byte (x : Z) : ascii := to_byte (0x80 + x mod 64).

Definition encoded (r : rune) : string :=
  if r <=? 0x7F then String (to_byte r) EmptyString
  else if r <=? 0x7FF then
    String (to_byte (0xC0 + r / 64)) (String (cont_byte r) EmptyString)
  else if r <=? 0xFFFF then
    String (to_byte (0xE0 + r / 4096))
      (String (cont_byte (r / 64)) (String (cont_byte r) EmptyString))
  else
    String (to_byte (0xF0 + r / 262144))
      (String (cont_byte (r / 4096))
         (String (cont_byte (r / 64)) (String (cont_byte r) EmptyString))).

(** ** The alphabet of a reading

    The characters ['.'] (46), ['?'] (63) and ['0'..'9'] (48 to 57). *)

Definition in_alphabet (c : rune) : Prop :=
  c = 46 \/ c = 63 \/ 48 <= c <= 57.

(** ** Occurrences in valid UTF-8 *)

(** [utf8.ValidString]: no step of the decoder meets an invalid byte. *)
Fixpoint ValidString_from (skip : nat) (s : string) : bool :=
  match s with
  | EmptyString => true
  | String b s' =>
    match skip with
    | S k => ValidString_from k s'
    | O =>
      let (r, w) := decoderune s in
      ((byte_val b <? RuneSelf) || (1 <? w)%nat)
      && ValidString_from (Nat.pred w) s'
    end
  end.

Definition ValidString (s : string) : bool := ValidString_from 0 s.

(** The first [k] bytes of [s] are continuation bytes. *)
Fixpoint conts (k : nat) (s : string) : bool :=
  match k with
  | O => true
  | S k' =>
    match s with
    | EmptyString => false
    | String b s' => is_cont b && conts k' s'
    end
  end.

(** ** Runs of the pipeline *)

(** The configuration [ReadGasGuagePic] uploads with. *)
Definition uploadConfig : UploadFileConfig :=
  {| MIMEType := "image/jpeg"; DisplayName := "Gas Meter Image" |}.

(** The state a run leaves: [ticks] more readings of the clock, the events
    [evs] after those of [st], and the client [c]. *)
Definition advance (st : state) (c : Client) (ticks : nat) (evs : list event)
  : state :=
  {| client := c; clock := (ticks + clock st)%nat; trace := trace st ++ evs |}.

(** The result of a run that started in [st]: the reading [read], the
    extracted date, and the two stamps taken after the clock was read at
    the start. *)
Definition stamped (w : World) (st : state) (out : GasMeterReadResult)
  (read : string) : GasMeterReadResult :=
  {| Read := read; Date := Date out;
     ReadAt := time_Now w (S (S (clock st)));
     ItTakes := Duration_String w (time_Now w (S (clock st))
                                   - time_Now w (clock st)) |}.

(** The line logged for an ambiguous reading. *)
Definition ambiguousLog (read : string) : event :=
  EvLog (Sprintf "Ambiguous digits found in the reading: %s" [read]).

(** The six ways a run can go, with its result and final state. *)
Inductive outcome (w : World) (jpg : string) (st : state)
  : result GasMeterReadResult * state -> Prop :=
| StagingFails e :
    Files_Upload w jpg uploadConfig = Err e ->
    outcome w jpg st
      (Err (StagingFailed e),
       advance st (client st) 1 [EvUpload jpg uploadConfig])
| ExtractionFails file e :
    Files_Upload w jpg uploadConfig = Ok file ->
    genkit_GenerateData w (extractionRequest (client st) file) = Err e ->
    outcome w jpg st
      (Err (InferenceFailed e),
       advance st (client st) 1
         [EvUpload jpg uploadConfig;
          EvGenerateData (extractionRequest (client st) file);
          EvDelete (Name file)])
| Unambiguous file out :
    Files_Upload w jpg uploadConfig = Ok file ->
    genkit_GenerateData w (extractionRequest (client st) file) = Ok out ->
    Contains (Read out) "?" = false ->
    outcome w jpg st
      (Ok (stamped w st out (Read out)),
       advance st (set_lastRead (client st) (Read out)) 3
         [EvUpload jpg uploadConfig;
          EvGenerateData (extractionRequest (client st) file);
          EvSetLastRead (Read out);
          EvDelete (Name file)])
| Rejected file out :
    Files_Upload w jpg uploadConfig = Ok file ->
    genkit_GenerateData w (extractionRequest (client st) file) = Ok out ->
    Contains (Read out) "?" = true ->
    containsOnly (Read out) alphabet = false ->
    outcome w jpg st
      (Err (DisambiguationFailed (InvalidInput (Read out))),
       advance st (client st) 1
         [EvUpload jpg uploadConfig;
          EvGenerateData (extractionRequest (client st) file);
          ambiguousLog (Read out);
          EvDelete (Name file)])
| ResolutionFails file out e :
    Files_Upload w jpg uploadConfig = Ok file ->
    genkit_GenerateData w (extractionRequest (client st) file) = Ok out ->
    Contains (Read out) "?" = true ->
    containsOnly (Read out) alphabet = true ->
    genkit_Generate w (resolutionRequest (client st) (Read out)) = Err e ->
    outcome w jpg st
      (Err (DisambiguationFailed (ResolutionInferenceFailed e)),
       advance st (client st) 1
         [EvUpload jpg uploadConfig;
          EvGenerateData (extractionRequest (client st) file);
          ambiguousLog (Read out);
          EvGenerate (resolutionRequest (client st) (Read out));
          EvDelete (Name file)])
| Resolved file out resp :
    Files_Upload w jpg uploadConfig = Ok file ->
    genkit_GenerateData w (extractionRequest (client st) file) = Ok out ->
    Contains (Read out) "?" = true ->
    containsOnly (Read out) alphabet = true ->
    genkit_Generate w (resolutionRequest (client st) (Read out)) = Ok resp ->
    outcome w jpg st
      (Ok (stamped w st out (Text resp)),
       advance st (set_lastRead (client st) (Text resp)) 3
         [EvUpload jpg uploadConfig;
          EvGenerateData (extractionRequest (client st) file);
          ambiguousLog (Read out);
          EvGenerate (resolutionRequest (client st) (Read out));
          EvSetLastRead (Text resp);
          EvDelete (Name file)]).

(** ** What a run did

    The events a run added to the trace, the resolution requests among
    them, the files disposed of, and the values assigned to [c.lastRead]. *)

Definition events_since (st st' : state) : list event :=
  skipn (List.length (trace st)) (trace st').

Definition resolution_calls (evs : list event) : list Request :=
  flat_map (fun e => match e with EvGenerate req => [req] | _ => [] end) evs.

Definition disposals (evs : list event) : list string :=
  flat_map (fun e => match e with EvDelete name => [name] | _ => [] end) evs.

Definition lastRead_writes (evs : list event) : list string :=
  flat_map (fun e => match e with EvSetLastRead v => [v] | _ => [] end) evs.

(** ** The resolution prompt

    The three literal pieces of [fixAmbiguousPromptFmt] around its two
    verbs, and the text messages of a request. *)

Definition promptHead : string := "The value “".

Definition promptMid : string :=
  "” represents the output of a analog-meter-reading analysis performed on an image.
Uncertain digits within the reading are denoted by the “?” character.

Using the previously recorded meter value " ++ dquote.

Definition promptTail : string :=
  dquote ++ " as a reference (only if it is not empty),
infer and replace the “?” characters to estimate the most probable complete reading.

Instructions:
- Return a string with the exact same length as the input value.
- Output only the predicted value, without any explanations or additional text.
".

Definition resolutionPrompt (ambiguousValueString previous : string) : string :=
  promptHead ++ ambiguousValueString ++ promptMid ++ previous ++ promptTail.

Definition prompt_of (req : Request) : list string :=
  flat_map (fun m => match m with
                     | UserMessage parts =>
                       flat_map (fun p => match p with
                                          | TextPart t => [t]
                                          | MediaPart _ _ => []
                                          end) parts
                     | SystemMessage _ => []
                     end) (req_messages req).

(** ** Sample worlds *)

Definition sampleClient : Client :=
  {| model := "googleai/gemini-2.5-flash-lite";
     systemPrompt := "You are reading an analog gas meter.";
     promptForImg := "Extract the reading and the date.";
     lastRead := "123.4" |}.

Definition sampleState : state :=
  {| client := sampleClient; clock := 0; trace := [] |}.

Definition sampleFile : File :=
  {| Name := "files/gauge"; URI := "https://files/gauge" |}.

Definition extracted (read : string) : GasMeterReadResult :=
  {| Read := read; Date := "2024-01-01"; ReadAt := 0; ItTakes := EmptyString |}.

(** A world that stages every image as [sampleFile] and answers the
    extraction, the resolution and the disposal as scripted. *)
Definition scripted (extraction : result GasMeterReadResult)
  (resolution : result ModelResponse) (disposal : result unit) : World :=
  {| time_Now := fun k => 1000 * Z.of_nat k;
     Duration_String := fun _ => "1µs";
     Files_Upload := fun _ _ => Ok sampleFile;
     Files_Delete := fun _ => disposal;
     genkit_GenerateData := fun _ => extraction;
     genkit_Generate := fun _ => resolution |}.

(** [w] with another behaviour of [Files.Delete]. *)
Definition with_Files_Delete (w : World) (d : string -> result unit) : World :=
  {| time_Now := time_Now w;
     Duration_String := Duration_String w;
     Files_Upload := Files_Upload w;
     Files_Delete := d;
     genkit_GenerateData := genkit_GenerateData w;
     genkit_Generate := genkit_Generate w |}.

(** ** The claims that fail as they are stated *)

(** P3 as stated: the reading of a successful run has no marker. *)
Definition no_markers_on_success : Prop :=
  forall w jpg st out st',
    ReadGasGuagePic w jpg st = (Ok out, st') ->
    Contains (Read out) "?" = false.

(** P4 as stated: a marker-bearing extraction makes exactly one resolution
    call, whose prompt has the ambiguous reading and the previous
    [lastRead]; an extraction without marker makes none. *)
Definition every_marker_is_resolved : Prop :=
  forall w jpg st file out,
    Files_Upload w jpg uploadConfig = Ok file ->
    genkit_GenerateData w (extractionRequest (client st) file) = Ok out ->
    let st' := snd (ReadGasGuagePic w jpg st) in
    (Contains (Read out) "?" = true ->
     exists req,
       resolution_calls (events_since st st') = [req]
       /\ prompt_of req
          = [resolutionPrompt (Read out) (lastRead (client st))])
    /\ (Contains (Read out) "?" = false ->
        resolution_calls (events_since st st') = []).


(** ** [NewClient]

    A Go call returns or panics.  [genkit.Init] runs first; it is given
    the [GoogleAI] plugin with no key, which the plugin then takes from
    the environment, and it panics when a plugin cannot be initialised.
    [genai.NewClient] is given the [apiKey] of the caller.

    The [Client] that [NewClient] builds holds the handles [g] and [c]
    beside the fields of [Client] above; a run reaches the gateway and
    the Files API through them, and the [World] a run is given stands for
    them. *)

Inductive go (A : Type) : Type :=
| Returns (a : A)
| Panics (v : string).

Arguments Returns {A} a.
Arguments Panics {A} v.

(** [googlegenai.GoogleAI], by its key. *)
Inductive Plugin : Type :=
| GoogleAI (key : string).

Inductive Backend : Type :=
| BackendGeminiAPI
| BackendVertexAI.

Record ClientConfig : Type := { ConfigBackend : Backend; APIKey : string }.

Record Built (Genkit GenaiClient : Type) : Type :=
  { g : Genkit; c : GenaiClient; fields : Client }.

Arguments g {Genkit GenaiClient} b.
Arguments c {Genkit GenaiClient} b.
Arguments fields {Genkit GenaiClient} b.

Definition NewClient {Genkit GenaiClient : Type}
  (genkit_Init : list Plugin -> go Genkit)
  (genai_NewClient : ClientConfig -> go (result GenaiClient))
  (apiKey model systemPrompt prompt : string)
  : go (result (Built Genkit GenaiClient)) :=
  match genkit_Init [GoogleAI EmptyString] with
  | Panics v => Panics v
  | Returns gk =>
    match genai_NewClient {| ConfigBackend := BackendGeminiAPI;
                             APIKey := apiKey |} with
    | Panics v => Panics v
    | Returns (Err err) =>
      Returns (Err (Errorf "failed to create client: %v" [err]))
    | Returns (Ok c) =>
      Returns (Ok {| g := gk; c := c;
                     fields := {| model := model;
                                  systemPrompt := systemPrompt;
                                  promptForImg := prompt;
                                  lastRead := EmptyString |} |})
    end
  end.

(** The state of a client before its first run. *)
Definition fresh (c : Client) : state :=
  {| client := c; clock := 0; trace := [] |}.

(** ** More of what a run did: the uploads, the extraction requests and
    the lines logged. *)

Definition uploads (evs : list event) : list (string * UploadFileConfig) :=
  flat_map (fun e => match e with
                     | EvUpload jpg cfg => [(jpg, cfg)]
                     | _ => []
                     end) evs.

Definition extraction_calls (evs : list event) : list Request :=
  flat_map (fun e => match e with EvGenerateData req => [req] | _ => [] end)
           evs.

Definition log_lines (evs : list event) : list string :=
  flat_map (fun e => match e with EvLog msg => [msg] | _ => [] end) evs.

(** [w] with another behaviour of [Files.Upload]. *)
Definition with_Files_Upload (w : World)
  (u : string -> UploadFileConfig -> result File) : World :=
  {| time_Now := time_Now w;
     Duration_String := Duration_String w;
     Files_Upload := u;
     Files_Delete := Files_Delete w;
     genkit_GenerateData := genkit_GenerateData w;
     genkit_Generate := genkit_Generate w |}.

(** ** The stages of a run that can fail

    Each is told by what the services answer: the upload; the extraction
    request for the staged file; the resolution of a reading with a
    marker, which fails when the reading is rejected or when the gateway
    fails on the resolution request. *)

Definition staging_fails (w : World) (jpg : string) : Prop :=
  exists cause, Files_Upload w jpg uploadConfig = Err cause.

Definition extraction_fails (w : World) (jpg : string) (c : Client) : Prop :=
  exists file cause,
    Files_Upload w jpg uploadConfig = Ok file
    /\ genkit_GenerateData w (extractionRequest c file) = Err cause.

Definition disambiguation_fails (w : World) (jpg : string) (c : Client)
  : Prop :=
  exists file out,
    Files_Upload w jpg uploadConfig = Ok file
    /\ genkit_GenerateData w (extractionRequest c file) = Ok out
    /\ Contains (Read out) "?" = true
    /\ (~ Forall in_alphabet (range (Read out))
        \/ exists cause,
             genkit_Generate w (resolutionRequest c (Read out)) = Err cause).

(** The bytes of the alphabet, as [in_alphabet] on their values. *)
Definition alphabet_byte (b : ascii) : Prop := in_alphabet (byte_val b).

(** * Properties *)

Example containsOnly_digits : containsOnly "12?.5" ".?0123456789" = true.
Proof. reflexivity. Qed.

Example containsOnly_letter : containsOnly "12a.5" ".?0123456789" = false.
Proof. reflexivity. Qed.

(** ** Bytes *)

Lemma byte_val_range (b : ascii) : 0 <= byte_val b < 256.
Proof.
  unfold byte_val. pose proof (N_ascii_bounded b). lia.
Qed.

Lemma byte_val_to_byte (x : Z) : byte_val (to_byte x) = x mod 256.
Proof.
  unfold byte_val, to_byte.
  change 0xFF with (Z.ones 8). rewrite Z.land_ones by lia.
  change (2 ^ 8) with 256.
  pose proof (Z.mod_pos_bound x 256 ltac:(lia)).
  rewrite N_ascii_embedding by lia.
  rewrite Z2N.id; lia.
Qed.

Lemma to_byte_byte_val (b : ascii) : to_byte (byte_val b) = b.
Proof.
  unfold to_byte, byte_val.
  change 0xFF with (Z.ones 8). rewrite Z.land_ones by lia.
  pose proof (N_ascii_bounded b).
  rewrite Z.mod_small by (change (2 ^ 8) with 256; lia).
  rewrite N2Z.id. apply ascii_N_embedding.
Qed.

(** [Z.lor] of a shifted value and a value below the shift is a sum. *)
Lemma lor_shifted (a b k : Z) :
  0 <= k -> 0 <= b < 2 ^ k -> Z.lor (a * 2 ^ k) b = a * 2 ^ k + b.
Proof.
  intros Hk Hb.
  assert (Z.land (a * 2 ^ k) b = 0) as H0.
  { apply Z.bits_inj'. intros n Hn.
    rewrite Z.land_spec, Z.bits_0.
    destruct (Z.ltb_spec n k).
    - rewrite Z.mul_pow2_bits_low by lia. reflexivity.
    - rewrite <- (Z.mod_small b (2 ^ k)) by lia.
      rewrite Z.mod_pow2_bits_high by lia. apply andb_false_r. }
  pose proof (Z.add_lor_land (a * 2 ^ k) b). lia.
Qed.

(** ** The decoder, in arithmetic *)

Lemma is_cont_iff (b : ascii) : is_cont b = true <-> 0x80 <= byte_val b <= 0xBF.
Proof. unfold is_cont, locb, hicb. lia. Qed.

Lemma dec2_arith (s0 s1 : Z) :
  Z.lor (Z.shiftl (Z.land s0 mask2) 6) (Z.land s1 maskx)
  = (s0 mod 32) * 64 + s1 mod 64.
Proof.
  change mask2 with (Z.ones 5). change maskx with (Z.ones 6).
  rewrite !Z.land_ones, Z.shiftl_mul_pow2 by lia.
  rewrite lor_shifted by (try lia; apply Z.mod_pos_bound; lia).
  reflexivity.
Qed.

Lemma dec3_arith (s0 s1 s2 : Z) :
  Z.lor (Z.lor (Z.shiftl (Z.land s0 mask3) 12)
               (Z.shiftl (Z.land s1 maskx) 6))
        (Z.land s2 maskx)
  = (s0 mod 16) * 4096 + (s1 mod 64) * 64 + s2 mod 64.
Proof.
  change mask3 with (Z.ones 4). change maskx with (Z.ones 6).
  rewrite !Z.land_ones, !Z.shiftl_mul_pow2 by lia.
  change (2 ^ 4) with 16. change (2 ^ 6) with 64. change (2 ^ 12) with 4096.
  pose proof (Z.mod_pos_bound s0 16 ltac:(lia)).
  pose proof (Z.mod_pos_bound s1 64 ltac:(lia)).
  pose proof (Z.mod_pos_bound s2 64 ltac:(lia)).
  change 4096 with (2 ^ 12) at 1.
  rewrite (lor_shifted (s0 mod 16) (s1 mod 64 * 64) 12) by lia.
  replace (s0 mod 16 * 2 ^ 12 + s1 mod 64 * 64)
    with ((s0 mod 16 * 64 + s1 mod 64) * 2 ^ 6) by lia.
  rewrite lor_shifted by lia. lia.
Qed.

Lemma dec4_arith (s0 s1 s2 s3 : Z) :
  Z.lor (Z.lor (Z.lor (Z.shiftl (Z.land s0 mask4) 18)
                      (Z.shiftl (Z.land s1 maskx) 12))
               (Z.shiftl (Z.land s2 maskx) 6))
        (Z.land s3 maskx)
  = (s0 mod 8) * 262144 + (s1 mod 64) * 4096 + (s2 mod 64) * 64 + s3 mod 64.
Proof.
  change mask4 with (Z.ones 3). change maskx with (Z.ones 6).
  rewrite !Z.land_ones, !Z.shiftl_mul_pow2 by lia.
  change (2 ^ 3) with 8. change (2 ^ 6) with 64.
  pose proof (Z.mod_pos_bound s0 8 ltac:(lia)).
  pose proof (Z.mod_pos_bound s1 64 ltac:(lia)).
  pose proof (Z.mod_pos_bound s2 64 ltac:(lia)).
  pose proof (Z.mod_pos_bound s3 64 ltac:(lia)).
  rewrite (lor_shifted (s0 mod 8) (s1 mod 64 * 2 ^ 12) 18) by lia.
  replace (s0 mod 8 * 2 ^ 18 + s1 mod 64 * 2 ^ 12)
    with ((s0 mod 8 * 64 + s1 mod 64) * 2 ^ 12) by lia.
  rewrite (lor_shifted _ (s2 mod 64 * 64) 12) by lia.
  replace ((s0 mod 8 * 64 + s1 mod 64) * 2 ^ 12 + s2 mod 64 * 64)
    with (((s0 mod 8 * 64 + s1 mod 64) * 64 + s2 mod 64) * 2 ^ 6) by lia.
  rewrite lor_shifted by lia. lia.
Qed.

Ltac decide_cmp :=
  repeat match goal with
  | |- context [?a <? ?b] =>
    first [ replace (a <? b) with true by (symmetry; apply Z.ltb_lt; lia)
          | replace (a <? b) with false by (symmetry; apply Z.ltb_ge; lia) ]
  | |- context [?a <=? ?b] =>
    first [ replace (a <=? b) with true by (symmetry; apply Z.leb_le; lia)
          | replace (a <=? b) with false by (symmetry; apply Z.leb_gt; lia) ]
  end;
  cbn [andb orb negb fst snd].

Lemma decoderune_decoded (b : ascii) (s : string) :
  decoded (String b s) (fst (decoderune (String b s)))
          (snd (decoderune (String b s))).
Proof.
  unfold decoderune.
  unfold RuneSelf, t2, t3, t4, t5, rune1Max, rune2Max, rune3Max, MaxRune,
    surrogateMin, surrogateMax.
  pose proof (byte_val_range b) as Hb.
  assert (byte_val b < 0x80 \/ 0x80 <= byte_val b < 0xC0
          \/ 0xC0 <= byte_val b < 0xE0 \/ 0xE0 <= byte_val b < 0xF0
          \/ 0xF0 <= byte_val b < 0xF8 \/ 0xF8 <= byte_val b)
    as [H|[H|[H|[H|[H|H]]]]] by lia;
    decide_cmp; try (cbn [fst snd]; constructor; lia).
  - destruct s as [|b1 s]; [cbn [fst snd]; constructor; lia|].
    destruct (is_cont b1) eqn:E1; [|cbn [fst snd]; constructor; lia].
    rewrite dec2_arith.
    destruct (Z.ltb_spec 0x7F (byte_val b mod 32 * 64 + byte_val b1 mod 64));
      [|cbn [fst snd]; constructor; lia].
    cbn [fst snd]; now apply dec_two.
  - destruct s as [|b1 [|b2 s]]; try (cbn [fst snd]; constructor; lia).
    destruct (is_cont b1) eqn:E1; [|cbn [fst snd]; constructor; lia].
    destruct (is_cont b2) eqn:E2; [|cbn [fst snd]; constructor; lia].
    cbn [andb]. rewrite dec3_arith.
    set (r := byte_val b mod 16 * 4096 + byte_val b1 mod 64 * 64
              + byte_val b2 mod 64).
    destruct (Z.ltb_spec 0x7FF r); cbn [andb]; [|cbn [fst snd]; constructor; lia].
    destruct (Z.leb_spec 0xD800 r); cbn [andb negb];
      [destruct (Z.leb_spec r 0xDFFF); cbn [negb]|];
      try (cbn [fst snd]; constructor; lia); cbn [fst snd]; apply dec_three; auto; lia.
  - destruct s as [|b1 [|b2 [|b3 s]]]; try (cbn [fst snd]; constructor; lia).
    destruct (is_cont b1) eqn:E1; [|cbn [fst snd]; constructor; lia].
    destruct (is_cont b2) eqn:E2; [|cbn [fst snd]; constructor; lia].
    destruct (is_cont b3) eqn:E3; [|cbn [fst snd]; constructor; lia].
    cbn [andb]. rewrite dec4_arith.
    set (r := byte_val b mod 8 * 262144 + byte_val b1 mod 64 * 4096
              + byte_val b2 mod 64 * 64 + byte_val b3 mod 64).
    destruct (Z.ltb_spec 0xFFFF r); cbn [andb]; [|cbn [fst snd]; constructor; lia].
    destruct (Z.leb_spec r 0x10FFFF); [|cbn [fst snd]; constructor; lia].
    cbn [fst snd]; apply dec_four; auto; lia.
Qed.

Lemma decoded_scalar s r w : decoded s r w -> scalar r.
Proof.
  unfold scalar.
  destruct 1 as [b s H|b s H|b0 b1 s r H0 H1 Hr Hlo
                 |b0 b1 b2 s r H0 H1 H2 Hr Hlo Hs
                 |b0 b1 b2 b3 s r H0 H1 H2 H3 Hr Hlo].
  - pose proof (byte_val_range b). lia.
  - unfold RuneError. lia.
  - subst r. Z.div_mod_to_equations. lia.
  - subst r. Z.div_mod_to_equations. lia.
  - lia.
Qed.

(** A byte below [RuneSelf] is a rune by itself; any other first byte
    starts a rune that is no ASCII character. *)
Lemma decoded_first b s r w :
  decoded (String b s) r w ->
  (byte_val b < 0x80 /\ r = byte_val b /\ w = 1%nat)
  \/ (0x80 <= byte_val b /\ 0x80 <= r).
Proof.
  intros H. inversion H; subst; try (right; unfold RuneError; lia).
  left. auto.
Qed.

Lemma range_from_skip k b s :
  range_from (S k) (String b s) = range_from k s.
Proof. reflexivity. Qed.

Lemma range_from_0 b s :
  range_from 0 (String b s)
  = fst (decoderune (String b s))
    :: range_from (Nat.pred (snd (decoderune (String b s)))) s.
Proof.
  cbn [range_from]. destruct (decoderune (String b s)). reflexivity.
Qed.

Lemma range_from_scalar s : forall k, Forall scalar (range_from k s).
Proof.
  induction s as [|b s IH]; intros k; [constructor|].
  destruct k as [|k].
  - rewrite range_from_0. constructor; [|apply IH].
    eapply decoded_scalar, decoderune_decoded.
  - rewrite range_from_skip. apply IH.
Qed.

Lemma range_scalar s : Forall scalar (range s).
Proof. apply range_from_scalar. Qed.

Lemma enc_cont (x : Z) :
  to_byte (Z.lor tx (Z.land (byte_val (to_byte x)) maskx)) = cont_byte x.
Proof.
  unfold cont_byte. f_equal.
  rewrite byte_val_to_byte. change maskx with (Z.ones 6).
  rewrite Z.land_ones by lia. change (2 ^ 6) with 64.
  change tx with (2 * 2 ^ 6).
  rewrite lor_shifted by (try lia; apply Z.mod_pos_bound; lia).
  Z.div_mod_to_equations. lia.
Qed.

Lemma enc_lead (a k x : Z) :
  0 <= k -> 0 <= x < 2 ^ k -> 2 ^ k <= 256 ->
  to_byte (Z.lor (a * 2 ^ k) (byte_val (to_byte x))) = to_byte (a * 2 ^ k + x).
Proof.
  intros Hk Hx Hp. rewrite byte_val_to_byte.
  rewrite Z.mod_small by lia. now rewrite lor_shifted.
Qed.

Lemma uint32_small (r : Z) : 0 <= r <= 0x10FFFF -> uint32 r = r.
Proof. intros H. unfold uint32. apply Z.mod_small. lia. Qed.

Lemma string_of_rune_encoded (r : rune) :
  scalar r -> string_of_rune r = encoded r.
Proof.
  intros [Hr Hs]. unfold string_of_rune, encoded, encode3.
  rewrite uint32_small by exact Hr.
  unfold rune1Max, rune2Max, rune3Max, MaxRune, surrogateMin, surrogateMax.
  rewrite !enc_cont, !Z.shiftr_div_pow2 by lia.
  change (2 ^ 6) with 64. change (2 ^ 12) with 4096.
  change (2 ^ 18) with 262144.
  destruct (Z.leb_spec r 0x7F); [reflexivity|].
  destruct (Z.leb_spec r 0x7FF).
  { change t2 with (3 * 2 ^ 6).
    rewrite enc_lead by (try lia; Z.div_mod_to_equations; lia).
    reflexivity. }
  replace ((0xD800 <=? r) && (r <=? 0xDFFF)) with false
    by (symmetry; apply andb_false_iff; lia).
  decide_cmp.
  destruct (Z.leb_spec r 0xFFFF).
  { change t3 with (7 * 2 ^ 5).
    rewrite enc_lead by (try lia; Z.div_mod_to_equations; lia).
    reflexivity. }
  change t4 with (15 * 2 ^ 4).
  rewrite enc_lead by (try lia; Z.div_mod_to_equations; lia).
  reflexivity.
Qed.

(** ** Occurrences *)

Lemma HasPrefix_nil (s : string) : HasPrefix s EmptyString = true.
Proof. destruct s; reflexivity. Qed.

Lemma HasPrefix_cons (a b : ascii) (s t : string) :
  HasPrefix (String a s) (String b t) = Ascii.eqb b a && HasPrefix s t.
Proof.
  unfold HasPrefix. cbn [String.prefix].
  destruct (ascii_dec b a) as [->|Hne].
  - now rewrite Ascii.eqb_refl.
  - apply Ascii.eqb_neq in Hne. now rewrite Hne.
Qed.

Lemma Contains_cons (a : ascii) (s sub : string) :
  Contains (String a s) sub = HasPrefix (String a s) sub || Contains s sub.
Proof. reflexivity. Qed.

Lemma Contains_first_In (s t : string) (b : ascii) :
  Contains s (String b t) = true -> In b (list_ascii_of_string s).
Proof.
  induction s as [|a s IH]; intros H.
  - discriminate H.
  - rewrite Contains_cons, HasPrefix_cons in H. cbn [list_ascii_of_string].
    apply orb_true_iff in H as [H|H].
    + apply andb_true_iff in H as [H _]. apply Ascii.eqb_eq in H. now left.
    + right. now apply IH.
Qed.

Lemma Contains_single (s : string) (b : ascii) :
  Contains s (String b EmptyString) = true <-> In b (list_ascii_of_string s).
Proof.
  split; [apply Contains_first_In|].
  induction s as [|a s IH]; intros H; [destruct H|].
  rewrite Contains_cons, HasPrefix_cons, HasPrefix_nil, andb_true_r.
  apply orb_true_iff. destruct H as [->|H].
  - left. apply Ascii.eqb_refl.
  - right. now apply IH.
Qed.

(** The first byte of an encoding: the rune itself below [RuneSelf], a
    leading byte from [0xC0] on otherwise. *)
Lemma encoded_first (r : rune) :
  scalar r ->
  exists b t, encoded r = String b t
    /\ (r <= 0x7F /\ byte_val b = r /\ t = EmptyString
        \/ 0x7F < r /\ 0xC0 <= byte_val b).
Proof.
  intros [Hr Hs]. unfold encoded.
  destruct (Z.leb_spec r 0x7F).
  { eexists _, _. split; [reflexivity|]. left.
    rewrite byte_val_to_byte. rewrite Z.mod_small by lia. auto. }
  destruct (Z.leb_spec r 0x7FF); [|destruct (Z.leb_spec r 0xFFFF)];
    (eexists _, _; split; [reflexivity|]; right; split; [lia|];
     rewrite byte_val_to_byte; Z.div_mod_to_equations; lia).
Qed.

Lemma alphabet_bytes (b : ascii) :
  In b (list_ascii_of_string alphabet) <-> in_alphabet (byte_val b).
Proof.
  unfold in_alphabet. split.
  - cbn [alphabet list_ascii_of_string In].
    intros H; repeat (destruct H as [<-|H]; [vm_compute; intuition congruence|]);
      destruct H.
  - intros H.
    assert (exists n, byte_val b = n /\ In (to_byte n) (list_ascii_of_string alphabet))
      as (n & Hn & Hin).
    { assert (byte_val b = 46 \/ byte_val b = 63 \/ byte_val b = 48
              \/ byte_val b = 49 \/ byte_val b = 50 \/ byte_val b = 51
              \/ byte_val b = 52 \/ byte_val b = 53 \/ byte_val b = 54
              \/ byte_val b = 55 \/ byte_val b = 56 \/ byte_val b = 57)
        as Hc by lia.
      repeat (destruct Hc as [Hc|Hc];
              [eexists; split; [exact Hc|]; vm_compute; tauto|]).
      eexists; split; [exact Hc|]; vm_compute; tauto. }
    rewrite <- Hn, to_byte_byte_val in Hin. exact Hin.
Qed.

Lemma occurs_alphabet (r : rune) :
  scalar r ->
  Contains alphabet (string_of_rune r) = true <-> in_alphabet r.
Proof.
  intros Hr. rewrite (string_of_rune_encoded r Hr).
  destruct (encoded_first r Hr) as (b & t & -> & [(H1 & H2 & ->)|(H1 & H2)]).
  - rewrite Contains_single, alphabet_bytes, H2. reflexivity.
  - split.
    + intros H. apply Contains_first_In, alphabet_bytes in H.
      unfold in_alphabet in H. lia.
    + unfold in_alphabet. lia.
Qed.

Lemma containsOnly_loop_Forall (cs : list rune) (chars : string) :
  containsOnly_loop cs chars = true
  <-> Forall (fun c => Contains chars (string_of_rune c) = true) cs.
Proof.
  induction cs as [|c cs IH]; cbn [containsOnly_loop].
  - split; auto.
  - destruct (Contains chars (string_of_rune c)) eqn:E; cbn [negb].
    + rewrite IH. split; intros H.
      * now constructor.
      * now inversion H.
    + split; [discriminate|]. intros H. inversion H; congruence.
Qed.

Lemma containsOnly_alphabet (s : string) :
  containsOnly s alphabet = true <-> Forall in_alphabet (range s).
Proof.
  unfold containsOnly. rewrite containsOnly_loop_Forall.
  pose proof (range_scalar s) as Hs.
  induction Hs as [|c cs Hc Hcs IH].
  - split; constructor.
  - split; intros H; inversion H; subst; constructor;
      try (now apply IH); now apply (occurs_alphabet c Hc).
Qed.

Lemma containsOnly_alphabet_false (s : string) :
  containsOnly s alphabet = false
  <-> Exists (fun c => ~ in_alphabet c) (range s).
Proof.
  rewrite <- not_true_iff_false, containsOnly_alphabet.
  rewrite <- Exists_Forall_neg; [reflexivity|].
  intros c. unfold in_alphabet. lia.
Qed.

(** For this alphabet the runes of the loop and the bytes of the string
    give the same test. *)
Lemma range_alphabet_bytes (s : string) :
  Forall in_alphabet (range s)
  <-> Forall (fun b => in_alphabet (byte_val b)) (list_ascii_of_string s).
Proof.
  unfold range. induction s as [|b s IH].
  - split; constructor.
  - rewrite range_from_0. cbn [list_ascii_of_string].
    rewrite !Forall_cons_iff.
    destruct (decoded_first _ _ _ _ (decoderune_decoded b s))
      as [(Hb & -> & ->)|(Hb & Hr)].
    + cbn [Nat.pred]. now rewrite IH.
    + unfold in_alphabet. split; intros [Hx _]; exfalso; lia.
Qed.

(** ** Occurrences in valid UTF-8 *)

Lemma decoded_conts b s r w :
  decoded (String b s) r w -> conts (Nat.pred w) s = true.
Proof.
  intros H. inversion H; subst; cbn [Nat.pred conts];
    repeat match goal with
           | E : is_cont _ = true |- _ => rewrite E; clear E
           end; reflexivity.
Qed.

Lemma cont_byte_val (x : Z) : byte_val (cont_byte x) = 0x80 + x mod 64.
Proof.
  unfold cont_byte. rewrite byte_val_to_byte. apply Z.mod_small.
  Z.div_mod_to_equations. lia.
Qed.

Lemma is_cont_cont_byte (x : Z) : is_cont (cont_byte x) = true.
Proof.
  apply is_cont_iff. rewrite cont_byte_val. Z.div_mod_to_equations. lia.
Qed.

Lemma to_byte_eq (x : Z) (b : ascii) : x = byte_val b -> to_byte x = b.
Proof. intros ->. apply to_byte_byte_val. Qed.

(** A rune that the decoder accepts is followed by its own encoding. *)
Lemma decoded_encoded s r w :
  decoded s r w ->
  (forall b s', s = String b s' -> byte_val b < 0x80 \/ (1 < w)%nat) ->
  HasPrefix s (encoded r) = true.
Proof.
  intros H Hok. unfold encoded.
  destruct H as [b s H|b s H|b0 b1 s r H0 H1 Hr Hlo
                 |b0 b1 b2 s r H0 H1 H2 Hr Hlo Hs
                 |b0 b1 b2 b3 s r H0 H1 H2 H3 Hr Hlo].
  - pose proof (byte_val_range b).
    replace (byte_val b <=? 0x7F) with true by (symmetry; apply Z.leb_le; lia).
    rewrite to_byte_byte_val, HasPrefix_cons, Ascii.eqb_refl, HasPrefix_nil.
    reflexivity.
  - destruct (Hok b s eq_refl); lia.
  - apply is_cont_iff in H1.
    pose proof (byte_val_range b0). pose proof (byte_val_range b1).
    assert (r / 64 = byte_val b0 - 0xC0 /\ r mod 64 = byte_val b1 - 0x80)
      as [Eq Em] by (subst r; Z.div_mod_to_equations; lia).
    assert (r <= 0x7FF) by (subst r; Z.div_mod_to_equations; lia).
    decide_cmp. unfold cont_byte. rewrite Eq, Em.
    rewrite !HasPrefix_cons, HasPrefix_nil.
    replace (to_byte (0xC0 + (byte_val b0 - 0xC0))) with b0
      by (symmetry; apply to_byte_eq; lia).
    replace (to_byte (0x80 + (byte_val b1 - 0x80))) with b1
      by (symmetry; apply to_byte_eq; lia).
    now rewrite !Ascii.eqb_refl.
  - apply is_cont_iff in H1. apply is_cont_iff in H2.
    pose proof (byte_val_range b0). pose proof (byte_val_range b1).
    pose proof (byte_val_range b2).
    assert (r / 4096 = byte_val b0 - 0xE0
            /\ (r / 64) mod 64 = byte_val b1 - 0x80
            /\ r mod 64 = byte_val b2 - 0x80)
      as (Eq & Em1 & Em) by (subst r; Z.div_mod_to_equations; lia).
    assert (r <= 0xFFFF) by (subst r; Z.div_mod_to_equations; lia).
    decide_cmp. unfold cont_byte. rewrite Eq, Em1, Em.
    rewrite !HasPrefix_cons, HasPrefix_nil.
    replace (to_byte (0xE0 + (byte_val b0 - 0xE0))) with b0
      by (symmetry; apply to_byte_eq; lia).
    replace (to_byte (0x80 + (byte_val b1 - 0x80))) with b1
      by (symmetry; apply to_byte_eq; lia).
    replace (to_byte (0x80 + (byte_val b2 - 0x80))) with b2
      by (symmetry; apply to_byte_eq; lia).
    now rewrite !Ascii.eqb_refl.
  - apply is_cont_iff in H1. apply is_cont_iff in H2. apply is_cont_iff in H3.
    pose proof (byte_val_range b0). pose proof (byte_val_range b1).
    pose proof (byte_val_range b2). pose proof (byte_val_range b3).
    assert (r / 262144 = byte_val b0 - 0xF0
            /\ (r / 4096) mod 64 = byte_val b1 - 0x80
            /\ (r / 64) mod 64 = byte_val b2 - 0x80
            /\ r mod 64 = byte_val b3 - 0x80)
      as (Eq & Em2 & Em1 & Em) by (subst r; Z.div_mod_to_equations; lia).
    decide_cmp. unfold cont_byte. rewrite Eq, Em2, Em1, Em.
    rewrite !HasPrefix_cons, HasPrefix_nil.
    replace (to_byte (0xF0 + (byte_val b0 - 0xF0))) with b0
      by (symmetry; apply to_byte_eq; lia).
    replace (to_byte (0x80 + (byte_val b1 - 0x80))) with b1
      by (symmetry; apply to_byte_eq; lia).
    replace (to_byte (0x80 + (byte_val b2 - 0x80))) with b2
      by (symmetry; apply to_byte_eq; lia).
    replace (to_byte (0x80 + (byte_val b3 - 0x80))) with b3
      by (symmetry; apply to_byte_eq; lia).
    now rewrite !Ascii.eqb_refl.
Qed.

Lemma HasPrefix_cons_inv (s t : string) (a : ascii) :
  HasPrefix s (String a t) = true ->
  exists s', s = String a s' /\ HasPrefix s' t = true.
Proof.
  destruct s as [|b s']; [discriminate|].
  rewrite HasPrefix_cons. intros H. apply andb_true_iff in H as [H1 H2].
  apply Ascii.eqb_eq in H1. subst b. now exists s'.
Qed.

Lemma byte_val_small (x : Z) : 0 <= x < 256 -> byte_val (to_byte x) = x.
Proof. intros H. rewrite byte_val_to_byte. now apply Z.mod_small. Qed.

(** The decoder reads back what the encoder wrote. *)
Lemma decoderune_encoded (s : string) (c : rune) :
  scalar c -> HasPrefix s (encoded c) = true -> fst (decoderune s) = c.
Proof.
  intros [Hc Hs] H. unfold encoded in H.
  destruct (Z.leb_spec c 0x7F).
  { apply HasPrefix_cons_inv in H as (s0 & -> & _).
    unfold decoderune. rewrite byte_val_small by lia.
    unfold RuneSelf. decide_cmp. reflexivity. }
  destruct (Z.leb_spec c 0x7FF).
  { apply HasPrefix_cons_inv in H as (s0 & -> & H).
    apply HasPrefix_cons_inv in H as (s1 & -> & _).
    assert (2 <= c / 64 <= 31) as Hq by (Z.div_mod_to_equations; lia).
    unfold decoderune.
    rewrite byte_val_small, is_cont_cont_byte, dec2_arith, cont_byte_val
      by lia.
    replace ((0xC0 + c / 64) mod 32 * 64 + (0x80 + c mod 64) mod 64) with c
      by (Z.div_mod_to_equations; lia).
    unfold RuneSelf, t2, t3, rune1Max. decide_cmp. reflexivity. }
  destruct (Z.leb_spec c 0xFFFF).
  { apply HasPrefix_cons_inv in H as (s0 & -> & H).
    apply HasPrefix_cons_inv in H as (s1 & -> & H).
    apply HasPrefix_cons_inv in H as (s2 & -> & _).
    assert (0 <= c / 4096 <= 15) as Hq by (Z.div_mod_to_equations; lia).
    unfold decoderune.
    rewrite byte_val_small, !is_cont_cont_byte, dec3_arith, !cont_byte_val
      by lia.
    replace ((0xE0 + c / 4096) mod 16 * 4096
             + (0x80 + (c / 64) mod 64) mod 64 * 64
             + (0x80 + c mod 64) mod 64) with c
      by (Z.div_mod_to_equations; lia).
    unfold RuneSelf, t2, t3, t4, rune2Max, surrogateMin, surrogateMax.
    replace ((0xD800 <=? c) && (c <=? 0xDFFF)) with false
      by (symmetry; apply andb_false_iff; lia).
    decide_cmp. reflexivity. }
  apply HasPrefix_cons_inv in H as (s0 & -> & H).
  apply HasPrefix_cons_inv in H as (s1 & -> & H).
  apply HasPrefix_cons_inv in H as (s2 & -> & H).
  apply HasPrefix_cons_inv in H as (s3 & -> & _).
  assert (0 <= c / 262144 <= 4) as Hq by (Z.div_mod_to_equations; lia).
  unfold decoderune.
  rewrite byte_val_small, !is_cont_cont_byte, dec4_arith, !cont_byte_val
    by lia.
  replace ((0xF0 + c / 262144) mod 8 * 262144
           + (0x80 + (c / 4096) mod 64) mod 64 * 4096
           + (0x80 + (c / 64) mod 64) mod 64 * 64
           + (0x80 + c mod 64) mod 64) with c
    by (Z.div_mod_to_equations; lia).
  unfold RuneSelf, t2, t3, t4, t5, rune3Max, MaxRune.
  decide_cmp. reflexivity.
Qed.

Lemma HasPrefix_not_cont (b : ascii) (s : string) (c : rune) :
  scalar c -> is_cont b = true -> HasPrefix (String b s) (encoded c) = false.
Proof.
  intros Hc Hb. apply is_cont_iff in Hb.
  destruct (encoded_first c Hc) as (b' & t & -> & Hfirst).
  rewrite HasPrefix_cons.
  destruct (Ascii.eqb b' b) eqn:E; [|reflexivity].
  apply Ascii.eqb_eq in E. subst b'. exfalso. lia.
Qed.

Section ValidOccurrences.

Variable c : rune.
Hypothesis Hc : scalar c.

Lemma occurs_range_from (s : string) : forall skip,
  ValidString_from skip s = true ->
  conts skip s = true ->
  Contains s (encoded c) = true <-> In c (range_from skip s).
Proof.
  induction s as [|b s IH]; intros skip Hv Hk.
  - cbn [Contains range_from In].
    destruct (encoded_first c Hc) as (b' & t & -> & _).
    split; [discriminate|tauto].
  - rewrite Contains_cons. destruct skip as [|k].
    + rewrite range_from_0. cbn [ValidString_from] in Hv.
      pose proof (decoderune_decoded b s) as Hd.
      destruct (decoderune (String b s)) as [r w] eqn:E.
      cbn [fst snd] in *.
      apply andb_true_iff in Hv as [Hstep Hv].
      assert (HasPrefix (String b s) (encoded c) = true <-> r = c) as Hhead.
      { split.
        - intros Hp. pose proof (decoderune_encoded _ c Hc Hp) as Hf.
          now rewrite E in Hf.
        - intros <-. apply (decoded_encoded _ _ _ Hd).
          intros b0 s0 [= <- <-].
          apply orb_true_iff in Hstep as [Hstep|Hstep].
          + left. unfold RuneSelf in Hstep. lia.
          + right. now apply Nat.ltb_lt in Hstep. }
      rewrite orb_true_iff, Hhead.
      rewrite (IH (Nat.pred w) Hv (decoded_conts _ _ _ _ Hd)).
      reflexivity.
    + cbn [ValidString_from conts] in Hv, Hk.
      apply andb_true_iff in Hk as [Hb Hk].
      rewrite (HasPrefix_not_cont b s c Hc Hb), range_from_skip.
      cbn [orb]. now apply IH.
Qed.

End ValidOccurrences.

(** In a valid UTF-8 string, the encoding of a character occurs exactly
    when the character is one of those the string is made of. *)
Lemma occurs_in_valid (chars : string) (c : rune) :
  ValidString chars = true -> scalar c ->
  Contains chars (string_of_rune c) = true <-> In c (range chars).
Proof.
  intros Hv Hc. rewrite (string_of_rune_encoded c Hc).
  now apply occurs_range_from.
Qed.

(** ** Runs of the pipeline *)

Section Runs.

Variable w : World.
Variable jpg : string.
Variable st : state.

Lemma guess_invalid (s : string) (st0 : state) :
  containsOnly s alphabet = false ->
  guessAmbiouousDigits w s st0 = (Err (InvalidInput s), st0).
Proof.
  intros H. unfold guessAmbiouousDigits. now rewrite H.
Qed.

Lemma guess_called (s : string) (st0 : state) :
  containsOnly s alphabet = true ->
  guessAmbiouousDigits w s st0
  = (match genkit_Generate w (resolutionRequest (client st0) s) with
     | Ok resp => Ok (Text resp)
     | Err err => Err (ResolutionInferenceFailed err)
     end,
     advance st0 (client st0) 0 [EvGenerate (resolutionRequest (client st0) s)]).
Proof.
  intros H. unfold guessAmbiouousDigits. rewrite H. cbn [negb].
  unfold bind, get_client, generate, emit, ret, advance. cbn.
  destruct (genkit_Generate w (resolutionRequest (client st0) s));
    reflexivity.
Qed.

Lemma run_upload_failed (e : error) :
  Files_Upload w jpg uploadConfig = Err e ->
  ReadGasGuagePic w jpg st
  = (Err (StagingFailed e), advance st (client st) 1 [EvUpload jpg uploadConfig]).
Proof.
  intros H. unfold ReadGasGuagePic, bind, now, upload, emit, ret. cbn.
  fold uploadConfig. rewrite H. reflexivity.
Qed.

Variable file : File.
Hypothesis Hupload : Files_Upload w jpg uploadConfig = Ok file.

Lemma run_extraction_failed (e : error) :
  genkit_GenerateData w (extractionRequest (client st) file) = Err e ->
  ReadGasGuagePic w jpg st
  = (Err (InferenceFailed e),
     advance st (client st) 1 [EvUpload jpg uploadConfig;
                     EvGenerateData (extractionRequest (client st) file);
                     EvDelete (Name file)]).
Proof.
  intros H.
  unfold ReadGasGuagePic, afterUpload, bind, now, upload, delete,
    generateData, get_client, emit, ret. cbn.
  fold uploadConfig. rewrite Hupload. cbn. rewrite H.
  unfold advance. cbn. rewrite <- !app_assoc. reflexivity.
Qed.

Variable out : GasMeterReadResult.
Hypothesis Hextract :
  genkit_GenerateData w (extractionRequest (client st) file) = Ok out.

Lemma run_unambiguous :
  Contains (Read out) "?" = false ->
  ReadGasGuagePic w jpg st
  = (Ok (stamped w st out (Read out)),
     advance st (set_lastRead (client st) (Read out)) 3
       [EvUpload jpg uploadConfig;
        EvGenerateData (extractionRequest (client st) file);
        EvSetLastRead (Read out);
        EvDelete (Name file)]).
Proof.
  intros H.
  unfold ReadGasGuagePic, afterUpload, finish, bind, now, upload, delete,
    generateData, get_client, store_lastRead, emit, ret. cbn.
  fold uploadConfig. rewrite Hupload. cbn. rewrite Hextract, H.
  unfold advance, stamped. cbn. rewrite <- !app_assoc. reflexivity.
Qed.

Hypothesis Hmarker : Contains (Read out) "?" = true.

Lemma run_invalid :
  containsOnly (Read out) alphabet = false ->
  ReadGasGuagePic w jpg st
  = (Err (DisambiguationFailed (InvalidInput (Read out))),
     advance st (client st) 1
       [EvUpload jpg uploadConfig;
        EvGenerateData (extractionRequest (client st) file);
        ambiguousLog (Read out);
        EvDelete (Name file)]).
Proof.
  intros H.
  unfold ReadGasGuagePic, afterUpload, bind, now, upload, delete,
    generateData, get_client, log_Printf, emit, ret. cbn.
  fold uploadConfig. rewrite Hupload. cbn.
  rewrite Hextract, Hmarker, guess_invalid by exact H.
  unfold advance. cbn. rewrite <- !app_assoc. reflexivity.
Qed.

Hypothesis Hvalid : containsOnly (Read out) alphabet = true.

Lemma run_resolution_failed (e : error) :
  genkit_Generate w (resolutionRequest (client st) (Read out)) = Err e ->
  ReadGasGuagePic w jpg st
  = (Err (DisambiguationFailed (ResolutionInferenceFailed e)),
     advance st (client st) 1
       [EvUpload jpg uploadConfig;
        EvGenerateData (extractionRequest (client st) file);
        ambiguousLog (Read out);
        EvGenerate (resolutionRequest (client st) (Read out));
        EvDelete (Name file)]).
Proof.
  intros H.
  unfold ReadGasGuagePic, afterUpload, bind, now, upload, delete,
    generateData, get_client, log_Printf, emit, ret. cbn.
  fold uploadConfig. rewrite Hupload. cbn.
  rewrite Hextract, Hmarker, guess_called by exact Hvalid.
  cbn. rewrite H.
  unfold advance. cbn. rewrite <- !app_assoc. reflexivity.
Qed.

Lemma run_resolved (resp : ModelResponse) :
  genkit_Generate w (resolutionRequest (client st) (Read out)) = Ok resp ->
  ReadGasGuagePic w jpg st
  = (Ok (stamped w st out (Text resp)),
     advance st (set_lastRead (client st) (Text resp)) 3
       [EvUpload jpg uploadConfig;
        EvGenerateData (extractionRequest (client st) file);
        ambiguousLog (Read out);
        EvGenerate (resolutionRequest (client st) (Read out));
        EvSetLastRead (Text resp);
        EvDelete (Name file)]).
Proof.
  intros H.
  unfold ReadGasGuagePic, afterUpload, finish, bind, now, upload, delete,
    generateData, get_client, store_lastRead, log_Printf, emit, ret. cbn.
  fold uploadConfig. rewrite Hupload. cbn.
  rewrite Hextract, Hmarker, guess_called by exact Hvalid.
  cbn. rewrite H.
  unfold advance, stamped. cbn. rewrite <- !app_assoc. reflexivity.
Qed.

End Runs.

Lemma run_outcome (w : World) (jpg : string) (st : state) :
  outcome w jpg st (ReadGasGuagePic w jpg st).
Proof.
  destruct (Files_Upload w jpg uploadConfig) as [file|e] eqn:Hu.
  2:{ rewrite (run_upload_failed w jpg st e Hu). now constructor. }
  destruct (genkit_GenerateData w (extractionRequest (client st) file))
    as [out|e] eqn:Hg.
  2:{ rewrite (run_extraction_failed w jpg st file Hu e Hg).
      now constructor. }
  destruct (Contains (Read out) "?") eqn:Hm.
  2:{ rewrite (run_unambiguous w jpg st file Hu out Hg Hm).
      now constructor. }
  destruct (containsOnly (Read out) alphabet) eqn:Hv.
  2:{ rewrite (run_invalid w jpg st file Hu out Hg Hm Hv).
      now constructor. }
  destruct (genkit_Generate w (resolutionRequest (client st) (Read out)))
    as [resp|e] eqn:Hr.
  - rewrite (run_resolved w jpg st file Hu out Hg Hm Hv resp Hr).
    now constructor.
  - rewrite (run_resolution_failed w jpg st file Hu out Hg Hm Hv e Hr).
    now constructor.
Qed.

Lemma events_since_advance st c k evs :
  events_since st (advance st c k evs) = evs.
Proof.
  unfold events_since, advance. cbn [trace].
  rewrite skipn_app, skipn_all, Nat.sub_diag. reflexivity.
Qed.

Lemma Sprintf_fixAmbiguousPromptFmt (a l : string) :
  Sprintf fixAmbiguousPromptFmt [a; l] = resolutionPrompt a l.
Proof. reflexivity. Qed.

Lemma prompt_of_resolutionRequest (c : Client) (a : string) :
  prompt_of (resolutionRequest c a) = [resolutionPrompt a (lastRead c)].
Proof. reflexivity. Qed.

Example scenario_resolved :
  ReadGasGuagePic
    (scripted (Ok (extracted "12?.5")) (Ok {| Text := "128.5" |}) (Ok tt))
    "JPG" sampleState
  = (Ok {| Read := "128.5"; Date := "2024-01-01"; ReadAt := 2000;
           ItTakes := "1µs" |},
     advance sampleState (set_lastRead sampleClient "128.5") 3
       [EvUpload "JPG" uploadConfig;
        EvGenerateData (extractionRequest sampleClient sampleFile);
        ambiguousLog "12?.5";
        EvGenerate (resolutionRequest sampleClient "12?.5");
        EvSetLastRead "128.5";
        EvDelete "files/gauge"]).
Proof. reflexivity. Qed.

(** ** The messages of the errors *)

Lemma append_nil_r (s : string) : s ++ EmptyString = s.
Proof.
  induction s as [|a s IH]; [reflexivity|].
  cbn. now rewrite IH.
Qed.

Lemma StagingFailed_message (cause : error) :
  StagingFailed cause = "failed to upload: " ++ cause.
Proof.
  unfold StagingFailed, Errorf. cbn. now rewrite append_nil_r.
Qed.

Lemma InferenceFailed_message (cause : error) :
  InferenceFailed cause = "failed to analyze: " ++ cause.
Proof.
  unfold InferenceFailed, Errorf. cbn. now rewrite append_nil_r.
Qed.

Lemma ResolutionInferenceFailed_message (cause : error) :
  ResolutionInferenceFailed cause = "failed to generate: " ++ cause.
Proof.
  unfold ResolutionInferenceFailed, Errorf. cbn. now rewrite append_nil_r.
Qed.

Lemma InvalidInput_message (s : string) :
  InvalidInput s = "ambious value string, " ++ s ++ " is not valid".
Proof. reflexivity. Qed.

Lemma DisambiguationFailed_message (cause : error) :
  DisambiguationFailed cause = "failed to guess ambiguous digits: " ++ cause.
Proof.
  unfold DisambiguationFailed, Errorf. cbn. now rewrite append_nil_r.
Qed.

(** * The claims *)

Lemma events_since_refl st : events_since st st = [].
Proof. unfold events_since. apply skipn_all. Qed.

Ltac run_cases w jpg st H :=
  let Ho := fresh "Ho" in
  pose proof (run_outcome w jpg st) as Ho;
  rewrite H in Ho; inversion Ho; subst; clear Ho.

(** ** C1: no markers on success *)

(** C1 fails as stated: a gateway that answers the resolution call with a
    text that still has a marker makes the run succeed with that text. *)
Lemma markers_survive_resolution : ~ no_markers_on_success.
Proof.
  intros H.
  specialize (H (scripted (Ok (extracted "12?.5")) (Ok {| Text := "12?.5" |})
                          (Ok tt))
                "JPG" sampleState _ _ eq_refl).
  discriminate H.
Qed.

(** C1, amended: the [Read] of a successful run contains no [?] provided
    that the text the gateway returned for the resolution call of the run,
    if one was made, contains none.  (Without a resolution call the
    reading is the extracted one, which has no marker.) *)
Theorem no_markers_unless_resolution_keeps_them w jpg st out st' :
  ReadGasGuagePic w jpg st = (Ok out, st') ->
  (forall req resp,
      In req (resolution_calls (events_since st st')) ->
      genkit_Generate w req = Ok resp ->
      Contains (Text resp) "?" = false) ->
  Contains (Read out) "?" = false.
Proof.
  intros Hrun Hgw. run_cases w jpg st Hrun.
  - assumption.
  - rewrite events_since_advance in Hgw. cbn [stamped Read].
    eapply Hgw; [|eassumption]. cbn. auto.
Qed.

Lemma no_markers_witness :
  Contains "128.5" "?" = false.
Proof.
  apply (no_markers_unless_resolution_keeps_them
           (scripted (Ok (extracted "12?.5")) (Ok {| Text := "128.5" |})
                     (Ok tt))
           "JPG" sampleState
           {| Read := "128.5"; Date := "2024-01-01"; ReadAt := 2000;
              ItTakes := "1µs" |}
           _ eq_refl).
  intros req resp _ H. cbn in H. injection H as <-. reflexivity.
Defined.

(** ** C2: the alphabet is validated before the call *)

(** C2: if a character of the ambiguous string is outside the alphabet,
    [guessAmbiouousDigits] returns the invalid-input error and leaves the
    state as it was, so no gateway call is made; if every character is in
    the alphabet, exactly the resolution request is issued. *)
Theorem guess_validates_alphabet w s st :
  (Exists (fun c => ~ in_alphabet c) (range s) ->
   guessAmbiouousDigits w s st = (Err (InvalidInput s), st)
   /\ resolution_calls (events_since st (snd (guessAmbiouousDigits w s st)))
      = [])
  /\ (Forall in_alphabet (range s) ->
      snd (guessAmbiouousDigits w s st)
      = advance st (client st) 0
          [EvGenerate (resolutionRequest (client st) s)]
      /\ resolution_calls
           (events_since st (snd (guessAmbiouousDigits w s st)))
         = [resolutionRequest (client st) s]).
Proof.
  split; intros H.
  - apply containsOnly_alphabet_false in H.
    rewrite (guess_invalid w s st H). cbn [snd].
    now rewrite events_since_refl.
  - apply containsOnly_alphabet in H.
    rewrite (guess_called w s st H). cbn [snd].
    now rewrite events_since_advance.
Qed.

Lemma guess_validates_alphabet_witness :
  (guessAmbiouousDigits (scripted (Ok (extracted "12a.5"))
                                  (Ok {| Text := "128.5" |}) (Ok tt))
                        "12a.5" sampleState
   = (Err (InvalidInput "12a.5"), sampleState))
  /\ snd (guessAmbiouousDigits (scripted (Ok (extracted "12?.5"))
                                  (Ok {| Text := "128.5" |}) (Ok tt))
                               "12?.5" sampleState)
     = advance sampleState sampleClient 0
         [EvGenerate (resolutionRequest sampleClient "12?.5")].
Proof.
  split.
  - apply (guess_validates_alphabet
             (scripted (Ok (extracted "12a.5")) (Ok {| Text := "128.5" |})
                       (Ok tt)) "12a.5" sampleState).
    replace (range "12a.5") with [49; 50; 97; 46; 53] by reflexivity.
    apply Exists_cons_tl, Exists_cons_tl, Exists_cons_hd.
    unfold in_alphabet. lia.
  - apply (guess_validates_alphabet
             (scripted (Ok (extracted "12?.5")) (Ok {| Text := "128.5" |})
                       (Ok tt)) "12?.5" sampleState).
    replace (range "12?.5") with [49; 50; 63; 46; 53] by reflexivity.
    repeat constructor; unfold in_alphabet; lia.
Defined.

(** ** C3: when the resolution call is made *)

(** C3 fails as stated: an extracted reading with a marker and a character
    outside the alphabet is rejected before any resolution call. *)
Lemma marker_outside_alphabet_not_resolved : ~ every_marker_is_resolved.
Proof.
  intros H.
  destruct (H (scripted (Ok (extracted "1?a")) (Ok {| Text := "123" |})
                        (Ok tt))
              "JPG" sampleState sampleFile (extracted "1?a")
              eq_refl eq_refl) as [Hm _].
  destruct (Hm eq_refl) as (req & Hreq & _).
  discriminate Hreq.
Qed.

(** C3, amended: after a successful upload and extraction, a reading with
    [?] whose characters are all in the alphabet triggers exactly one
    resolution call, whose prompt embeds the reading and the [lastRead]
    held before the run; a reading with [?] and a character outside the
    alphabet triggers none and the run fails with the invalid-input error;
    a reading without [?] triggers none. *)
Theorem disambiguation_trigger w jpg st file out :
  Files_Upload w jpg uploadConfig = Ok file ->
  genkit_GenerateData w (extractionRequest (client st) file) = Ok out ->
  let run := ReadGasGuagePic w jpg st in
  (Contains (Read out) "?" = true ->
   Forall in_alphabet (range (Read out)) ->
   resolution_calls (events_since st (snd run))
   = [resolutionRequest (client st) (Read out)]
   /\ prompt_of (resolutionRequest (client st) (Read out))
      = [resolutionPrompt (Read out) (lastRead (client st))])
  /\ (Contains (Read out) "?" = true ->
      Exists (fun c => ~ in_alphabet c) (range (Read out)) ->
      resolution_calls (events_since st (snd run)) = []
      /\ fst run = Err (DisambiguationFailed (InvalidInput (Read out))))
  /\ (Contains (Read out) "?" = false ->
      resolution_calls (events_since st (snd run)) = []).
Proof.
  intros Hu Hg run. subst run. split; [|split].
  - intros Hm Hv. apply containsOnly_alphabet in Hv. split; [|reflexivity].
    destruct (genkit_Generate w (resolutionRequest (client st) (Read out)))
      as [resp|e] eqn:Hr.
    + rewrite (run_resolved w jpg st file Hu out Hg Hm Hv resp Hr).
      cbn [snd]. now rewrite events_since_advance.
    + rewrite (run_resolution_failed w jpg st file Hu out Hg Hm Hv e Hr).
      cbn [snd]. now rewrite events_since_advance.
  - intros Hm Hv. apply containsOnly_alphabet_false in Hv.
    rewrite (run_invalid w jpg st file Hu out Hg Hm Hv). cbn [fst snd].
    now rewrite events_since_advance.
  - intros Hm. rewrite (run_unambiguous w jpg st file Hu out Hg Hm).
    cbn [snd]. now rewrite events_since_advance.
Qed.

Lemma disambiguation_trigger_witness :
  resolution_calls
    (events_since sampleState
       (snd (ReadGasGuagePic
               (scripted (Ok (extracted "12?.5")) (Ok {| Text := "128.5" |})
                         (Ok tt)) "JPG" sampleState)))
  = [resolutionRequest sampleClient "12?.5"]
  /\ prompt_of (resolutionRequest sampleClient "12?.5")
     = [resolutionPrompt "12?.5" "123.4"].
Proof.
  apply (disambiguation_trigger
           (scripted (Ok (extracted "12?.5")) (Ok {| Text := "128.5" |})
                     (Ok tt))
           "JPG" sampleState sampleFile (extracted "12?.5")
           eq_refl eq_refl).
  - reflexivity.
  - replace (range (Read (extracted "12?.5"))) with [49; 50; 63; 46; 53]
      by reflexivity.
    repeat constructor; unfold in_alphabet; lia.
Defined.

(** ** C4: [lastRead] is written last, and read before *)

(** C4: a successful run assigns [lastRead] exactly once, with the final
    reading, as its last action before the deferred disposal; a resolution
    prompt of the run has the [lastRead] from before the run, and one of
    the next run has the reading this run returned. *)
Theorem lastRead_written_once_at_end w jpg st out st' :
  ReadGasGuagePic w jpg st = (Ok out, st') ->
  lastRead_writes (events_since st st') = [Read out]
  /\ lastRead (client st') = Read out
  /\ (exists before file,
        events_since st st'
        = (before ++ [EvSetLastRead (Read out); EvDelete (Name file)])%list
        /\ lastRead_writes before = [])
  /\ (forall req, In req (resolution_calls (events_since st st')) ->
      exists ambiguous,
        prompt_of req = [resolutionPrompt ambiguous (lastRead (client st))])
  /\ (forall w2 jpg2 req,
        In req (resolution_calls
                  (events_since st' (snd (ReadGasGuagePic w2 jpg2 st')))) ->
        exists ambiguous,
          prompt_of req = [resolutionPrompt ambiguous (Read out)]).
Proof.
  intros Hrun.
  assert (forall w0 jpg0 st0 req,
             In req (resolution_calls
                       (events_since st0 (snd (ReadGasGuagePic w0 jpg0 st0)))) ->
             exists ambiguous,
               prompt_of req
               = [resolutionPrompt ambiguous (lastRead (client st0))])
    as Hctx.
  { intros w0 jpg0 st0 req.
    destruct (run_outcome w0 jpg0 st0); cbn [snd];
      rewrite events_since_advance; cbn; intros Hin;
      repeat (destruct Hin as [<-|Hin]; [eexists; reflexivity|]);
      destruct Hin. }
  assert (lastRead (client st') = Read out) as Hlast
    by (run_cases w jpg st Hrun; reflexivity).
  repeat split.
  - run_cases w jpg st Hrun; now rewrite events_since_advance.
  - exact Hlast.
  - run_cases w jpg st Hrun; rewrite events_since_advance; cbn [stamped Read].
    + exists [EvUpload jpg uploadConfig;
              EvGenerateData (extractionRequest (client st) file)], file.
      now split.
    + exists [EvUpload jpg uploadConfig;
              EvGenerateData (extractionRequest (client st) file);
              ambiguousLog (Read out0);
              EvGenerate (resolutionRequest (client st) (Read out0))], file.
      now split.
  - intros req Hin. apply (Hctx w jpg st req). now rewrite Hrun.
  - intros w2 jpg2 req Hin. rewrite <- Hlast. now apply (Hctx w2 jpg2 st' req).
Qed.

Lemma lastRead_written_once_witness :
  lastRead_writes
    (events_since sampleState
       (advance sampleState (set_lastRead sampleClient "128.5") 3
          [EvUpload "JPG" uploadConfig;
           EvGenerateData (extractionRequest sampleClient sampleFile);
           ambiguousLog "12?.5";
           EvGenerate (resolutionRequest sampleClient "12?.5");
           EvSetLastRead "128.5";
           EvDelete "files/gauge"]))
  = ["128.5"].
Proof.
  apply (lastRead_written_once_at_end
           (scripted (Ok (extracted "12?.5")) (Ok {| Text := "128.5" |})
                     (Ok tt))
           "JPG" sampleState
           {| Read := "128.5"; Date := "2024-01-01"; ReadAt := 2000;
              ItTakes := "1µs" |}
           _ eq_refl).
Defined.

(** ** C5: no fallback to the ambiguous reading *)

(** C5: when the Disambiguator, called on the marker-bearing reading with
    the client of the run, returns an error, the run returns the error
    [DisambiguationFailed] wrapping it, and so no result. *)
Theorem disambiguator_error_fails_run w jpg st file out st1 e st2 :
  Files_Upload w jpg uploadConfig = Ok file ->
  genkit_GenerateData w (extractionRequest (client st) file) = Ok out ->
  Contains (Read out) "?" = true ->
  client st1 = client st ->
  guessAmbiouousDigits w (Read out) st1 = (Err e, st2) ->
  fst (ReadGasGuagePic w jpg st) = Err (DisambiguationFailed e).
Proof.
  intros Hu Hg Hm Hc Hguess.
  destruct (containsOnly (Read out) alphabet) eqn:Hv.
  - rewrite (guess_called w (Read out) st1 Hv), Hc in Hguess.
    destruct (genkit_Generate w (resolutionRequest (client st) (Read out)))
      as [resp|e0] eqn:Hr; [discriminate Hguess|].
    injection Hguess as <- _.
    now rewrite (run_resolution_failed w jpg st file Hu out Hg Hm Hv e0 Hr).
  - rewrite (guess_invalid w (Read out) st1 Hv) in Hguess.
    injection Hguess as <- _.
    now rewrite (run_invalid w jpg st file Hu out Hg Hm Hv).
Qed.

Lemma disambiguator_error_witness :
  fst (ReadGasGuagePic
         (scripted (Ok (extracted "12?.5")) (Err "deadline exceeded") (Ok tt))
         "JPG" sampleState)
  = Err (DisambiguationFailed (ResolutionInferenceFailed "deadline exceeded")).
Proof.
  apply (disambiguator_error_fails_run
           (scripted (Ok (extracted "12?.5")) (Err "deadline exceeded")
                     (Ok tt))
           "JPG" sampleState sampleFile (extracted "12?.5") sampleState
           (ResolutionInferenceFailed "deadline exceeded")
           (advance sampleState sampleClient 0
              [EvGenerate (resolutionRequest sampleClient "12?.5")]));
    reflexivity.
Defined.

(** ** C6: errors leave the session state alone *)

(** C6: a run that returns an error leaves [lastRead], and the whole
    client, unchanged, and makes no assignment to [lastRead]. *)
Theorem error_leaves_lastRead w jpg st e st' :
  ReadGasGuagePic w jpg st = (Err e, st') ->
  lastRead (client st') = lastRead (client st)
  /\ client st' = client st
  /\ lastRead_writes (events_since st st') = [].
Proof.
  intros Hrun.
  run_cases w jpg st Hrun; rewrite events_since_advance; auto.
Qed.

Lemma error_leaves_lastRead_witness :
  lastRead (client (advance sampleState sampleClient 1
                      [EvUpload "JPG" uploadConfig;
                       EvGenerateData
                         (extractionRequest sampleClient sampleFile);
                       EvDelete "files/gauge"]))
  = "123.4".
Proof.
  apply (error_leaves_lastRead
           (scripted (Err "quota exceeded") (Ok {| Text := "128.5" |})
                     (Ok tt))
           "JPG" sampleState (InferenceFailed "quota exceeded") _ eq_refl).
Defined.

(** ** C7: the resolution text is taken verbatim *)

(** C7: when the resolution call succeeds with a response, the
    Disambiguator returns the response's text as it is, whatever it is,
    and the run succeeds with that text as its [Read]. *)
Theorem resolution_text_verbatim w jpg st file out st1 resp :
  Files_Upload w jpg uploadConfig = Ok file ->
  genkit_GenerateData w (extractionRequest (client st) file) = Ok out ->
  Contains (Read out) "?" = true ->
  Forall in_alphabet (range (Read out)) ->
  client st1 = client st ->
  genkit_Generate w (resolutionRequest (client st) (Read out)) = Ok resp ->
  fst (guessAmbiouousDigits w (Read out) st1) = Ok (Text resp)
  /\ exists res,
       fst (ReadGasGuagePic w jpg st) = Ok res /\ Read res = Text resp.
Proof.
  intros Hu Hg Hm Hv Hc Hr. apply containsOnly_alphabet in Hv. split.
  - rewrite (guess_called w (Read out) st1 Hv), Hc, Hr. reflexivity.
  - rewrite (run_resolved w jpg st file Hu out Hg Hm Hv resp Hr).
    eexists. split; reflexivity.
Qed.

Lemma resolution_text_verbatim_witness :
  fst (guessAmbiouousDigits
         (scripted (Ok (extracted "12?.5"))
                   (Ok {| Text := " about 128.5? " |}) (Ok tt))
         "12?.5" sampleState)
  = Ok " about 128.5? "
  /\ exists res,
       fst (ReadGasGuagePic
              (scripted (Ok (extracted "12?.5"))
                        (Ok {| Text := " about 128.5? " |}) (Ok tt))
              "JPG" sampleState) = Ok res
       /\ Read res = " about 128.5? ".
Proof.
  apply (resolution_text_verbatim
           (scripted (Ok (extracted "12?.5"))
                     (Ok {| Text := " about 128.5? " |}) (Ok tt))
           "JPG" sampleState sampleFile (extracted "12?.5") sampleState
           {| Text := " about 128.5? " |});
    try reflexivity.
  replace (range (Read (extracted "12?.5"))) with [49; 50; 63; 46; 53]
    by reflexivity.
  repeat constructor; unfold in_alphabet; lia.
Defined.

(** ** C8: the staged file is disposed of once *)

(** C8: after a successful upload the run calls [Files.Delete] exactly
    once, on the name of the staged file, as its last event on every path;
    and what [Files.Delete] returns changes neither the result nor the
    final state of the run. *)
Theorem disposal_runs_once w jpg st file :
  Files_Upload w jpg uploadConfig = Ok file ->
  disposals (events_since st (snd (ReadGasGuagePic w jpg st))) = [Name file]
  /\ (exists before,
        events_since st (snd (ReadGasGuagePic w jpg st))
        = (before ++ [EvDelete (Name file)])%list)
  /\ (forall d,
        ReadGasGuagePic (with_Files_Delete w d) jpg st
        = ReadGasGuagePic w jpg st).
Proof.
  intros Hu. split; [|split].
  - destruct (run_outcome w jpg st); cbn [snd];
      rewrite events_since_advance; try congruence;
      replace file0 with file by congruence; reflexivity.
  - destruct (run_outcome w jpg st); cbn [snd];
      rewrite events_since_advance; try congruence;
      replace file0 with file by congruence.
    + now exists [EvUpload jpg uploadConfig;
                  EvGenerateData (extractionRequest (client st) file)].
    + now exists [EvUpload jpg uploadConfig;
                  EvGenerateData (extractionRequest (client st) file);
                  EvSetLastRead (Read out)].
    + now exists [EvUpload jpg uploadConfig;
                  EvGenerateData (extractionRequest (client st) file);
                  ambiguousLog (Read out)].
    + now exists [EvUpload jpg uploadConfig;
                  EvGenerateData (extractionRequest (client st) file);
                  ambiguousLog (Read out);
                  EvGenerate (resolutionRequest (client st) (Read out))].
    + now exists [EvUpload jpg uploadConfig;
                  EvGenerateData (extractionRequest (client st) file);
                  ambiguousLog (Read out);
                  EvGenerate (resolutionRequest (client st) (Read out));
                  EvSetLastRead (Text resp)].
  - intros d.
    destruct (run_outcome w jpg st) as [e H1|f e H1 H2|f o H1 H2 H3
                                        |f o H1 H2 H3 H4|f o e H1 H2 H3 H4 H5
                                        |f o r H1 H2 H3 H4 H5].
    + exact (run_upload_failed (with_Files_Delete w d) jpg st e H1).
    + exact (run_extraction_failed (with_Files_Delete w d) jpg st f H1 e H2).
    + exact (run_unambiguous (with_Files_Delete w d) jpg st f H1 o H2 H3).
    + exact (run_invalid (with_Files_Delete w d) jpg st f H1 o H2 H3 H4).
    + exact (run_resolution_failed (with_Files_Delete w d) jpg st f H1 o H2
               H3 H4 e H5).
    + exact (run_resolved (with_Files_Delete w d) jpg st f H1 o H2 H3 H4 r
               H5).
Qed.

Lemma disposal_runs_once_witness :
  disposals
    (events_since sampleState
       (snd (ReadGasGuagePic
               (scripted (Err "quota exceeded") (Ok {| Text := "128.5" |})
                         (Err "file not found"))
               "JPG" sampleState)))
  = ["files/gauge"].
Proof.
  apply (disposal_runs_once
           (scripted (Err "quota exceeded") (Ok {| Text := "128.5" |})
                     (Err "file not found"))
           "JPG" sampleState sampleFile eq_refl).
Defined.

(** Without a staged file there is nothing to dispose of. *)
Lemma no_disposal_without_staging w jpg st e :
  Files_Upload w jpg uploadConfig = Err e ->
  disposals (events_since st (snd (ReadGasGuagePic w jpg st))) = [].
Proof.
  intros Hu. rewrite (run_upload_failed w jpg st e Hu). cbn [snd].
  now rewrite events_since_advance.
Qed.

(** ** C9: the date is the extracted date *)

(** C9: the [Date] of the result of a successful run is the [Date] of the
    structured extraction, whether or not the resolution step ran. *)
Theorem date_is_extracted_date w jpg st file out res st' :
  Files_Upload w jpg uploadConfig = Ok file ->
  genkit_GenerateData w (extractionRequest (client st) file) = Ok out ->
  ReadGasGuagePic w jpg st = (Ok res, st') ->
  Date res = Date out.
Proof.
  intros Hu Hg Hrun.
  run_cases w jpg st Hrun; cbn [stamped Date]; congruence.
Qed.

Lemma date_is_extracted_date_witness :
  Date {| Read := "128.5"; Date := "2024-01-01"; ReadAt := 2000;
          ItTakes := "1µs" |}
  = Date (extracted "12?.5").
Proof.
  apply (date_is_extracted_date
           (scripted (Ok (extracted "12?.5")) (Ok {| Text := "128.5" |})
                     (Ok tt))
           "JPG" sampleState sampleFile (extracted "12?.5") _ _
           eq_refl eq_refl eq_refl).
Defined.

(** ** C10: [containsOnly] *)


Section Occurrences.

Variable c : rune.
Hypothesis Hc : scalar c.



End Occurrences.




(** A byte that is no UTF-8 is read as [RuneError], whose encoding does
    not occur in a [chars] made of that same byte. *)
Example containsOnly_invalid_byte :
  let x := String (ascii_of_nat 255) EmptyString in
  range x = [RuneError] /\ ValidString x = false
  /\ containsOnly x x = false.
Proof. repeat split. Qed.


(** * Further properties of the code *)

(** ** Helpers *)

Lemma resolution_context w jpg st req :
  In req (resolution_calls
            (events_since st (snd (ReadGasGuagePic w jpg st)))) ->
  req_model req = model (client st)
  /\ exists ambiguous,
       prompt_of req = [resolutionPrompt ambiguous (lastRead (client st))].
Proof.
  destruct (run_outcome w jpg st); cbn [snd];
    rewrite events_since_advance; cbn; intros Hin;
    repeat (destruct Hin as [<-|Hin];
            [split; [reflexivity|eexists; reflexivity]|]);
    destruct Hin.
Qed.

Lemma run_keeps_prompts w jpg st :
  model (client (snd (ReadGasGuagePic w jpg st))) = model (client st)
  /\ systemPrompt (client (snd (ReadGasGuagePic w jpg st)))
     = systemPrompt (client st)
  /\ promptForImg (client (snd (ReadGasGuagePic w jpg st)))
     = promptForImg (client st).
Proof.
  destruct (run_outcome w jpg st); cbn; auto.
Qed.

(** ** [NewClient] *)

(** X1: [NewClient] panics when [genkit.Init] panics, whatever
    [genai.NewClient] would answer, and when [genai.NewClient] panics.
    When both return, it fails exactly when [genai.NewClient] returns an
    error, with the cause after [failed to create client: ]; otherwise
    the client it returns holds the two handles, the model and the
    prompts it was given and an empty previous reading, so that the
    resolution prompt of its first run has nothing between the quotes. *)
Theorem NewClient_first_run {Genkit GenaiClient : Type}
  (init : list Plugin -> go Genkit)
  (mk : ClientConfig -> go (result GenaiClient)) apiKey m sp p :
  match init [GoogleAI EmptyString] with
  | Panics v => NewClient init mk apiKey m sp p = Panics v
  | Returns gk =>
    match mk {| ConfigBackend := BackendGeminiAPI; APIKey := apiKey |} with
    | Panics v => NewClient init mk apiKey m sp p = Panics v
    | Returns (Err e) =>
      NewClient init mk apiKey m sp p
      = Returns (Err ("failed to create client: " ++ e))
    | Returns (Ok h) =>
      exists b,
        NewClient init mk apiKey m sp p = Returns (Ok b)
        /\ g b = gk /\ c b = h
        /\ fields b = {| model := m; systemPrompt := sp; promptForImg := p;
                         lastRead := EmptyString |}
        /\ forall w jpg req,
             In req (resolution_calls
                       (events_since (fresh (fields b))
                          (snd (ReadGasGuagePic w jpg (fresh (fields b)))))) ->
             req_model req = m
             /\ exists ambiguous,
                  prompt_of req = [resolutionPrompt ambiguous EmptyString]
    end
  end.
Proof.
  unfold NewClient.
  destruct (init [GoogleAI EmptyString]) as [gk|v]; [|reflexivity].
  destruct (mk {| ConfigBackend := BackendGeminiAPI; APIKey := apiKey |})
    as [[h|e]|v]; [| |reflexivity].
  - eexists. split; [reflexivity|]. cbn [g c fields].
    repeat (split; [reflexivity|]).
    intros w jpg req Hin.
    apply (resolution_context w jpg _ req Hin).
  - unfold Errorf. cbn. now rewrite append_nil_r.
Qed.

(** ** Failures before the resolution step *)

(** X2: when the upload fails, the run returns the cause wrapped as
    [failed to upload: ...]; the upload is the only thing the run did (no
    extraction request, no resolution request, no disposal), and the
    client is as before. *)
Theorem staging_failure_stops_the_run w jpg st e :
  Files_Upload w jpg uploadConfig = Err e ->
  exists st',
    ReadGasGuagePic w jpg st = (Err ("failed to upload: " ++ e), st')
    /\ events_since st st' = [EvUpload jpg uploadConfig]
    /\ client st' = client st.
Proof.
  intros Hu. eexists. rewrite (run_upload_failed w jpg st e Hu).
  rewrite StagingFailed_message, events_since_advance. auto.
Qed.

Lemma staging_failure_witness :
  exists st',
    ReadGasGuagePic
      (with_Files_Upload
         (scripted (Ok (extracted "100.2")) (Ok {| Text := "100.2" |})
                   (Ok tt))
         (fun _ _ => Err "413 payload too large"))
      "JPG" sampleState
    = (Err ("failed to upload: " ++ "413 payload too large"), st')
    /\ events_since sampleState st' = [EvUpload "JPG" uploadConfig]
    /\ client st' = client sampleState.
Proof.
  apply (staging_failure_stops_the_run
           (with_Files_Upload
              (scripted (Ok (extracted "100.2")) (Ok {| Text := "100.2" |})
                        (Ok tt))
              (fun _ _ => Err "413 payload too large"))
           "JPG" sampleState "413 payload too large").
  reflexivity.
Defined.

(** X3: when the extraction request fails, the run returns the cause
    wrapped as [failed to analyze: ...]; it logged nothing, made no
    resolution request, and did exactly: upload, extraction request,
    disposal. *)
Theorem extraction_failure_stops_the_run w jpg st file e :
  Files_Upload w jpg uploadConfig = Ok file ->
  genkit_GenerateData w (extractionRequest (client st) file) = Err e ->
  exists st',
    ReadGasGuagePic w jpg st = (Err ("failed to analyze: " ++ e), st')
    /\ events_since st st'
       = [EvUpload jpg uploadConfig;
          EvGenerateData (extractionRequest (client st) file);
          EvDelete (Name file)].
Proof.
  intros Hu Hg. eexists.
  rewrite (run_extraction_failed w jpg st file Hu e Hg).
  rewrite InferenceFailed_message, events_since_advance. auto.
Qed.

Lemma extraction_failure_witness :
  exists st',
    ReadGasGuagePic
      (scripted (Err "quota exceeded") (Ok {| Text := "128.5" |}) (Ok tt))
      "JPG" sampleState
    = (Err ("failed to analyze: " ++ "quota exceeded"), st')
    /\ events_since sampleState st'
       = [EvUpload "JPG" uploadConfig;
          EvGenerateData (extractionRequest sampleClient sampleFile);
          EvDelete (Name sampleFile)].
Proof.
  apply (extraction_failure_stops_the_run
           (scripted (Err "quota exceeded") (Ok {| Text := "128.5" |})
                     (Ok tt))
           "JPG" sampleState sampleFile "quota exceeded");
    reflexivity.
Defined.

(** ** The calls of a run *)

(** X4: every run starts by uploading the image once, as [image/jpeg]
    named [Gas Meter Image]; it makes at most one extraction request and
    at most one resolution request; when the upload succeeds, the
    extraction request is made once, with the client's system prompt, the
    staged file's URI as [image/jpeg] media and the client's image
    prompt. *)
Theorem calls_of_a_run w jpg st :
  let evs := events_since st (snd (ReadGasGuagePic w jpg st)) in
  (exists rest, evs = EvUpload jpg uploadConfig :: rest)
  /\ uploads evs
     = [(jpg, {| MIMEType := "image/jpeg";
                 DisplayName := "Gas Meter Image" |})]
  /\ (List.length (extraction_calls evs) <= 1)%nat
  /\ (List.length (resolution_calls evs) <= 1)%nat
  /\ (forall file,
        Files_Upload w jpg uploadConfig = Ok file ->
        extraction_calls evs
        = [{| req_model := model (client st);
              req_messages :=
                [SystemMessage [TextPart (systemPrompt (client st))];
                 UserMessage [MediaPart "image/jpeg" (URI file);
                              TextPart (promptForImg (client st))]];
              req_config := samplingConfig |}]).
Proof.
  intros evs. subst evs.
  destruct (run_outcome w jpg st) as [e H1|f e H1 H2|f o H1 H2 H3
                                      |f o H1 H2 H3 H4|f o e H1 H2 H3 H4 H5
                                      |f o r H1 H2 H3 H4 H5];
    cbn [snd]; rewrite events_since_advance;
    (split; [eexists; reflexivity|]); (split; [reflexivity|]);
    (split; [cbn; lia|]); (split; [cbn; lia|]);
    intros file Hu; rewrite Hu in H1; try discriminate H1;
    injection H1 as <-; reflexivity.
Qed.

(** ** A reading without marker *)

(** X5: a reading without [?] is not validated: whatever its characters,
    the run succeeds with that reading, and [lastRead] becomes it. *)
Theorem unmarked_reading_is_accepted w jpg st file out :
  Files_Upload w jpg uploadConfig = Ok file ->
  genkit_GenerateData w (extractionRequest (client st) file) = Ok out ->
  Contains (Read out) "?" = false ->
  exists res st',
    ReadGasGuagePic w jpg st = (Ok res, st')
    /\ Read res = Read out
    /\ lastRead (client st') = Read out.
Proof.
  intros Hu Hg Hm. eexists _, _.
  rewrite (run_unambiguous w jpg st file Hu out Hg Hm).
  repeat split.
Qed.

Lemma unmarked_reading_witness :
  containsOnly "12a.5" alphabet = false
  /\ exists res st',
       ReadGasGuagePic
         (scripted (Ok (extracted "12a.5")) (Ok {| Text := "128.5" |})
                   (Ok tt)) "JPG" sampleState
       = (Ok res, st')
       /\ Read res = Read (extracted "12a.5")
       /\ lastRead (client st') = Read (extracted "12a.5").
Proof.
  split; [reflexivity|].
  apply (unmarked_reading_is_accepted
           (scripted (Ok (extracted "12a.5")) (Ok {| Text := "128.5" |})
                     (Ok tt))
           "JPG" sampleState sampleFile (extracted "12a.5"));
    reflexivity.
Defined.

(** ** The stamps *)

(** X6: on success the clock was read three times: at the start, for the
    elapsed time, and for [ReadAt]; [ItTakes] is the duration between the
    first two readings and [ReadAt] is the third, whatever the extraction
    had put in these two fields. *)
Theorem stamps_of_a_success w jpg st res st' :
  ReadGasGuagePic w jpg st = (Ok res, st') ->
  clock st' = (3 + clock st)%nat
  /\ ItTakes res
     = Duration_String w (time_Now w (1 + clock st)%nat
                          - time_Now w (clock st))
  /\ ReadAt res = time_Now w (2 + clock st)%nat.
Proof.
  intros Hrun. run_cases w jpg st Hrun; repeat split.
Qed.

Lemma stamps_witness :
  ReadAt {| Read := "100.2"; Date := "2024-01-01"; ReadAt := 2000;
            ItTakes := "1µs" |}
  = time_Now (scripted (Ok {| Read := "100.2"; Date := "2024-01-01";
                              ReadAt := 77; ItTakes := "never" |})
                       (Ok {| Text := "128.5" |}) (Ok tt))
             (2 + clock sampleState)%nat.
Proof.
  apply (stamps_of_a_success
           (scripted (Ok {| Read := "100.2"; Date := "2024-01-01";
                            ReadAt := 77; ItTakes := "never" |})
                     (Ok {| Text := "128.5" |}) (Ok tt))
           "JPG" sampleState _ _ eq_refl).
Defined.

(** ** What a run leaves alone *)

(** X7: no run changes the model or the prompts of the client, and the
    Disambiguator changes nothing of the client and does not read the
    clock. *)
Theorem prompts_are_never_changed w jpg st s :
  (let st' := snd (ReadGasGuagePic w jpg st) in
   model (client st') = model (client st)
   /\ systemPrompt (client st') = systemPrompt (client st)
   /\ promptForImg (client st') = promptForImg (client st))
  /\ (let st' := snd (guessAmbiouousDigits w s st) in
      client st' = client st /\ clock st' = clock st).
Proof.
  split; [apply run_keeps_prompts|].
  destruct (containsOnly s alphabet) eqn:Hv.
  - rewrite (guess_called w s st Hv). cbn. auto.
  - rewrite (guess_invalid w s st Hv). cbn. auto.
Qed.

(** ** The log *)

(** X8: after a successful extraction the run logs one line, the
    ambiguous reading, exactly when the reading has a [?] (also when the
    reading is then rejected or the resolution fails); otherwise it logs
    nothing. *)
Theorem log_iff_marker w jpg st file out :
  Files_Upload w jpg uploadConfig = Ok file ->
  genkit_GenerateData w (extractionRequest (client st) file) = Ok out ->
  log_lines (events_since st (snd (ReadGasGuagePic w jpg st)))
  = if Contains (Read out) "?"
    then ["Ambiguous digits found in the reading: " ++ Read out]
    else [].
Proof.
  intros Hu Hg.
  assert (Sprintf "Ambiguous digits found in the reading: %s" [Read out]
          = "Ambiguous digits found in the reading: " ++ Read out) as Hmsg
    by (cbn; now rewrite append_nil_r).
  destruct (Contains (Read out) "?") eqn:Hm.
  - destruct (containsOnly (Read out) alphabet) eqn:Hv.
    + destruct (genkit_Generate w (resolutionRequest (client st) (Read out)))
        as [resp|e] eqn:Hr.
      * rewrite (run_resolved w jpg st file Hu out Hg Hm Hv resp Hr).
        cbn [snd]. rewrite events_since_advance.
        unfold ambiguousLog. cbn [log_lines flat_map app]. now rewrite Hmsg.
      * rewrite (run_resolution_failed w jpg st file Hu out Hg Hm Hv e Hr).
        cbn [snd]. rewrite events_since_advance.
        unfold ambiguousLog. cbn [log_lines flat_map app]. now rewrite Hmsg.
    + rewrite (run_invalid w jpg st file Hu out Hg Hm Hv).
      cbn [snd]. rewrite events_since_advance.
      unfold ambiguousLog. cbn [log_lines flat_map app]. now rewrite Hmsg.
  - rewrite (run_unambiguous w jpg st file Hu out Hg Hm).
    cbn [snd]. now rewrite events_since_advance.
Qed.

Lemma log_iff_marker_witness :
  log_lines
    (events_since sampleState
       (snd (ReadGasGuagePic
               (scripted (Ok (extracted "1?a")) (Ok {| Text := "128.5" |})
                         (Ok tt)) "JPG" sampleState)))
  = ["Ambiguous digits found in the reading: 1?a"].
Proof.
  apply (log_iff_marker
           (scripted (Ok (extracted "1?a")) (Ok {| Text := "128.5" |})
                     (Ok tt))
           "JPG" sampleState sampleFile (extracted "1?a"));
    reflexivity.
Defined.

(** ** Runs in sequence *)

(** X9: a failed run does not disturb the context: after a successful run
    and then a failed one, a resolution prompt of the next run still has
    the reading of the successful run. *)
Theorem failed_run_keeps_context w1 jpg1 st0 out st1 w2 jpg2 e st2 :
  ReadGasGuagePic w1 jpg1 st0 = (Ok out, st1) ->
  ReadGasGuagePic w2 jpg2 st1 = (Err e, st2) ->
  lastRead (client st2) = Read out
  /\ forall w3 jpg3 req,
       In req (resolution_calls
                 (events_since st2 (snd (ReadGasGuagePic w3 jpg3 st2)))) ->
       exists ambiguous,
         prompt_of req = [resolutionPrompt ambiguous (Read out)].
Proof.
  intros H1 H2.
  assert (lastRead (client st1) = Read out) as Hl1
    by (run_cases w1 jpg1 st0 H1; reflexivity).
  assert (client st2 = client st1) as Hc
    by (run_cases w2 jpg2 st1 H2; reflexivity).
  assert (lastRead (client st2) = Read out) as Hl2 by now rewrite Hc.
  split; [exact Hl2|].
  intros w3 jpg3 req Hin. rewrite <- Hl2.
  now apply (resolution_context w3 jpg3 st2 req).
Qed.

Lemma failed_run_keeps_context_witness :
  lastRead
    (client
       (advance
          (advance sampleState (set_lastRead sampleClient "128.5") 3
             [EvUpload "JPG" uploadConfig;
              EvGenerateData (extractionRequest sampleClient sampleFile);
              ambiguousLog "12?.5";
              EvGenerate (resolutionRequest sampleClient "12?.5");
              EvSetLastRead "128.5";
              EvDelete "files/gauge"])
          (set_lastRead sampleClient "128.5") 1
          [EvUpload "JPG2" uploadConfig;
           EvGenerateData
             (extractionRequest (set_lastRead sampleClient "128.5")
                                sampleFile);
           EvDelete "files/gauge"]))
  = Read {| Read := "128.5"; Date := "2024-01-01"; ReadAt := 2000;
            ItTakes := "1µs" |}.
Proof.
  refine (proj1 (failed_run_keeps_context
                   (scripted (Ok (extracted "12?.5"))
                             (Ok {| Text := "128.5" |}) (Ok tt))
                   "JPG" sampleState
                   {| Read := "128.5"; Date := "2024-01-01"; ReadAt := 2000;
                      ItTakes := "1µs" |}
                   (advance sampleState (set_lastRead sampleClient "128.5") 3
                      [EvUpload "JPG" uploadConfig;
                       EvGenerateData
                         (extractionRequest sampleClient sampleFile);
                       ambiguousLog "12?.5";
                       EvGenerate (resolutionRequest sampleClient "12?.5");
                       EvSetLastRead "128.5";
                       EvDelete "files/gauge"])
                   (scripted (Err "quota exceeded") (Ok {| Text := "0" |})
                             (Ok tt))
                   "JPG2" (InferenceFailed "quota exceeded") _ _ _));
    vm_compute; reflexivity.
Defined.

(** ** [containsOnly] on the alphabet *)

Lemma list_ascii_of_string_app (s1 s2 : string) :
  list_ascii_of_string (s1 ++ s2)
  = (list_ascii_of_string s1 ++ list_ascii_of_string s2)%list.
Proof.
  induction s1 as [|a s1 IH]; [reflexivity|].
  cbn. now rewrite IH.
Qed.

Lemma containsOnly_alphabet_iff_bytes (s : string) :
  containsOnly s alphabet = true
  <-> Forall alphabet_byte (list_ascii_of_string s).
Proof. rewrite containsOnly_alphabet. apply range_alphabet_bytes. Qed.

(** X10: for the alphabet of a reading the test is one on bytes:
    [containsOnly s ".?0123456789"] is [true] exactly when every byte of
    [s] is ['.'], ['?'] or a digit; a byte from [0x80] on, valid UTF-8 or
    not, makes it [false]. *)
Theorem containsOnly_alphabet_bytes (s : string) :
  (containsOnly s ".?0123456789" = true
   <-> Forall alphabet_byte (list_ascii_of_string s))
  /\ (Exists (fun b => 0x80 <= byte_val b) (list_ascii_of_string s) ->
      containsOnly s ".?0123456789" = false).
Proof.
  pose proof (containsOnly_alphabet_iff_bytes s) as Hiff.
  split; [exact Hiff|].
  intros Hex. apply not_true_iff_false. intros Ht.
  apply Hiff in Ht. rewrite Forall_forall in Ht.
  apply Exists_exists in Hex as (b & Hin & Hb).
  specialize (Ht b Hin). unfold alphabet_byte, in_alphabet in Ht. lia.
Qed.

Lemma containsOnly_alphabet_bytes_witness :
  containsOnly ("12" ++ String (ascii_of_nat 195)
                          (String (ascii_of_nat 169) "5"))
               ".?0123456789" = false.
Proof.
  apply (containsOnly_alphabet_bytes
           ("12" ++ String (ascii_of_nat 195)
                      (String (ascii_of_nat 169) "5"))).
  apply Exists_cons_tl, Exists_cons_tl, Exists_cons_hd.
  replace (byte_val (ascii_of_nat 195)) with 195 by reflexivity. lia.
Defined.

(** X11: on the alphabet the test distributes over concatenation,
    wherever the strings are cut. *)
Theorem containsOnly_alphabet_app (s1 s2 : string) :
  containsOnly (s1 ++ s2) ".?0123456789"
  = containsOnly s1 ".?0123456789" && containsOnly s2 ".?0123456789".
Proof.
  apply eq_true_iff_eq. rewrite andb_true_iff.
  change ".?0123456789" with alphabet.
  rewrite !containsOnly_alphabet_iff_bytes.
  rewrite list_ascii_of_string_app. apply Forall_app.
Qed.

(** ** [containsOnly] in general *)

Lemma string_of_rune_nonempty (r : rune) : string_of_rune r <> EmptyString.
Proof.
  unfold string_of_rune, encode3.
  repeat match goal with
         | |- context [if ?c then _ else _] => destruct c
         end; discriminate.
Qed.

Lemma Contains_empty (x : string) :
  x <> EmptyString -> Contains EmptyString x = false.
Proof. destruct x; [congruence|reflexivity]. Qed.

Lemma range_nonempty (s : string) : s <> EmptyString -> range s <> [].
Proof.
  destruct s as [|b s]; [congruence|]. intros _.
  unfold range. rewrite range_from_0. discriminate.
Qed.

(** X12: with no character allowed, only the empty string passes. *)
Theorem containsOnly_no_chars (s : string) :
  containsOnly s EmptyString = true <-> s = EmptyString.
Proof.
  split; [|intros ->; reflexivity].
  intros H. destruct s as [|b s]; [reflexivity|]. exfalso.
  unfold containsOnly in H. apply containsOnly_loop_Forall in H.
  pose proof (range_nonempty (String b s) ltac:(discriminate)) as Hne.
  destruct (range (String b s)) as [|c cs]; [congruence|].
  inversion H as [|x l Hx Hl]; subst.
  rewrite (Contains_empty _ (string_of_rune_nonempty c)) in Hx.
  discriminate Hx.
Qed.

Lemma HasPrefix_app (s post x : string) :
  HasPrefix s x = true -> HasPrefix (s ++ post) x = true.
Proof.
  revert s. induction x as [|a x IH]; intros s H.
  - apply HasPrefix_nil.
  - apply HasPrefix_cons_inv in H as (s' & -> & H).
    cbn [append]. rewrite HasPrefix_cons, Ascii.eqb_refl. now apply IH.
Qed.

Lemma Contains_app_r (s post x : string) :
  Contains s x = true -> Contains (s ++ post) x = true.
Proof.
  induction s as [|a s IH]; intros H.
  - cbn [Contains] in H. rewrite orb_false_r in H.
    destruct x; [|discriminate H].
    destruct post; reflexivity.
  - cbn [append]. rewrite Contains_cons in *.
    apply orb_true_iff in H as [H|H]; apply orb_true_iff.
    + left. now apply (HasPrefix_app (String a s) post x).
    + right. now apply IH.
Qed.

Lemma Contains_app_l (pre s x : string) :
  Contains s x = true -> Contains (pre ++ s) x = true.
Proof.
  intros H. induction pre as [|a pre IH]; [exact H|].
  cbn [append]. rewrite Contains_cons, IH. apply orb_true_r.
Qed.

(** X13: allowing more characters never rejects what passed: if [chars]
    occurs inside [chars'], every string that [chars] accepts is accepted
    by [chars']. *)
Theorem containsOnly_more_chars (s chars pre post : string) :
  containsOnly s chars = true ->
  containsOnly s (pre ++ chars ++ post) = true.
Proof.
  unfold containsOnly. rewrite !containsOnly_loop_Forall.
  apply Forall_impl. intros c Hc.
  now apply Contains_app_l, Contains_app_r.
Qed.

Lemma containsOnly_more_chars_witness :
  containsOnly "12?.5" ("-+" ++ ".?0123456789" ++ "eE") = true.
Proof.
  apply (containsOnly_more_chars "12?.5" ".?0123456789" "-+" "eE").
  reflexivity.
Defined.

Lemma containsOnly_valid (s chars : string) :
  ValidString chars = true ->
  containsOnly s chars = true <-> Forall (fun c => In c (range chars)) (range s).
Proof.
  intros Hv. unfold containsOnly. rewrite containsOnly_loop_Forall.
  pose proof (range_scalar s) as Hs.
  induction Hs as [|c cs Hc Hcs IH]; [split; constructor|].
  rewrite !Forall_cons_iff, IH, (occurs_in_valid chars c Hv Hc).
  reflexivity.
Qed.

(** X14: a string of valid UTF-8 consists of its own characters:
    [containsOnly s s] is [true]. *)
Theorem containsOnly_self (s : string) :
  ValidString s = true -> containsOnly s s = true.
Proof.
  intros Hv. apply (containsOnly_valid s s Hv).
  apply Forall_forall. auto.
Qed.

Lemma containsOnly_self_witness : containsOnly "12é€😀" "12é€😀" = true.
Proof.
  apply (containsOnly_self "12é€😀"). reflexivity.
Defined.

(** ** Encoding and decoding *)

(** The decoder reads back the rune and takes exactly its encoding. *)
Lemma decoderune_encoded_width (s : string) (c : rune) :
  scalar c -> HasPrefix s (encoded c) = true ->
  decoderune s = (c, String.length (encoded c)).
Proof.
  intros [Hc Hs] H. unfold encoded in *.
  destruct (Z.leb_spec c 0x7F).
  { apply HasPrefix_cons_inv in H as (s0 & -> & _).
    unfold decoderune. rewrite byte_val_small by lia.
    unfold RuneSelf. decide_cmp. reflexivity. }
  destruct (Z.leb_spec c 0x7FF).
  { apply HasPrefix_cons_inv in H as (s0 & -> & H).
    apply HasPrefix_cons_inv in H as (s1 & -> & _).
    assert (2 <= c / 64 <= 31) as Hq by (Z.div_mod_to_equations; lia).
    unfold decoderune.
    rewrite byte_val_small, is_cont_cont_byte, dec2_arith, cont_byte_val
      by lia.
    replace ((0xC0 + c / 64) mod 32 * 64 + (0x80 + c mod 64) mod 64) with c
      by (Z.div_mod_to_equations; lia).
    unfold RuneSelf, t2, t3, rune1Max. decide_cmp. reflexivity. }
  destruct (Z.leb_spec c 0xFFFF).
  { apply HasPrefix_cons_inv in H as (s0 & -> & H).
    apply HasPrefix_cons_inv in H as (s1 & -> & H).
    apply HasPrefix_cons_inv in H as (s2 & -> & _).
    assert (0 <= c / 4096 <= 15) as Hq by (Z.div_mod_to_equations; lia).
    unfold decoderune.
    rewrite byte_val_small, !is_cont_cont_byte, dec3_arith, !cont_byte_val
      by lia.
    replace ((0xE0 + c / 4096) mod 16 * 4096
             + (0x80 + (c / 64) mod 64) mod 64 * 64
             + (0x80 + c mod 64) mod 64) with c
      by (Z.div_mod_to_equations; lia).
    unfold RuneSelf, t2, t3, t4, rune2Max, surrogateMin, surrogateMax.
    replace ((0xD800 <=? c) && (c <=? 0xDFFF)) with false
      by (symmetry; apply andb_false_iff; lia).
    decide_cmp. reflexivity. }
  apply HasPrefix_cons_inv in H as (s0 & -> & H).
  apply HasPrefix_cons_inv in H as (s1 & -> & H).
  apply HasPrefix_cons_inv in H as (s2 & -> & H).
  apply HasPrefix_cons_inv in H as (s3 & -> & _).
  assert (0 <= c / 262144 <= 4) as Hq by (Z.div_mod_to_equations; lia).
  unfold decoderune.
  rewrite byte_val_small, !is_cont_cont_byte, dec4_arith, !cont_byte_val
    by lia.
  replace ((0xF0 + c / 262144) mod 8 * 262144
           + (0x80 + (c / 4096) mod 64) mod 64 * 4096
           + (0x80 + (c / 64) mod 64) mod 64 * 64
           + (0x80 + c mod 64) mod 64) with c
    by (Z.div_mod_to_equations; lia).
  unfold RuneSelf, t2, t3, t4, t5, rune3Max, MaxRune.
  decide_cmp. reflexivity.
Qed.

Lemma HasPrefix_refl (s : string) : HasPrefix s s = true.
Proof.
  induction s as [|a s IH]; [reflexivity|].
  now rewrite HasPrefix_cons, Ascii.eqb_refl.
Qed.

Lemma range_from_all (s : string) : range_from (String.length s) s = [].
Proof. induction s as [|a s IH]; [reflexivity|exact IH]. Qed.

Lemma encoded_range (c : rune) : scalar c -> range (encoded c) = [c].
Proof.
  intros Hc.
  pose proof (decoderune_encoded_width (encoded c) c Hc (HasPrefix_refl _))
    as Hd.
  destruct (encoded_first c Hc) as (b & t & E & _).
  rewrite E in *. unfold range. rewrite range_from_0, Hd.
  cbn [fst snd String.length Nat.pred]. now rewrite range_from_all.
Qed.

(** X15: the test of [containsOnly] turns each character back into a
    string; that round trip loses nothing: for every character [c] that
    [range] yields from a string, [range] over [string(c)] yields [c]
    alone, and [string(c)] is valid UTF-8 that occurs in itself. *)
Theorem range_string_of_rune (s : string) :
  Forall (fun c => range (string_of_rune c) = [c]
                   /\ Contains (string_of_rune c) (string_of_rune c) = true)
         (range s).
Proof.
  eapply Forall_impl; [|apply range_scalar].
  intros c Hc. rewrite (string_of_rune_encoded c Hc). split.
  - now apply encoded_range.
  - destruct (encoded c) as [|a t]; [reflexivity|].
    rewrite Contains_cons, HasPrefix_refl. reflexivity.
Qed.

(** What is no code point is written as [RuneError]. *)
Lemma string_of_rune_invalid (r : rune) :
  - 2 ^ 31 <= r < 2 ^ 31 ->
  r < 0 \/ 0x10FFFF < r \/ 0xD800 <= r <= 0xDFFF ->
  string_of_rune r = string_of_rune RuneError.
Proof.
  intros Hr Hbad. unfold string_of_rune at 1, uint32.
  unfold rune1Max, rune2Max, rune3Max, MaxRune, surrogateMin, surrogateMax.
  assert (r mod 2 ^ 32 = r /\ 0 <= r \/ r mod 2 ^ 32 = r + 2 ^ 32 /\ r < 0)
    as Hm.
  { destruct (Z.ltb_spec r 0).
    - right. split; [|lia].
      rewrite <- (Z.mod_add r 1 (2 ^ 32)) by lia.
      apply Z.mod_small. lia.
    - left. split; [|lia]. apply Z.mod_small. lia. }
  change (2 ^ 32) with 4294967296 in *. change (2 ^ 31) with 2147483648 in *.
  destruct Hm as [[-> Hp]|[-> Hn]].
  - destruct Hbad as [Hb|[Hb|Hb]]; [lia| |].
    + decide_cmp. reflexivity.
    + decide_cmp. reflexivity.
  - decide_cmp. reflexivity.
Qed.

(** ** Concatenation *)

Lemma containsOnly_loop_app (l1 l2 : list rune) (chars : string) :
  containsOnly_loop (l1 ++ l2) chars
  = containsOnly_loop l1 chars && containsOnly_loop l2 chars.
Proof.
  induction l1 as [|c l1 IH]; [reflexivity|].
  cbn [app containsOnly_loop].
  destruct (Contains chars (string_of_rune c)); cbn [negb]; [exact IH|].
  reflexivity.
Qed.

Lemma conts_length (k : nat) (s : string) :
  conts k s = true -> (k <= String.length s)%nat.
Proof.
  revert s. induction k as [|k IH]; intros s H; [lia|].
  destruct s as [|b s]; [discriminate H|].
  cbn [conts] in H. apply andb_true_iff in H as [_ H].
  apply IH in H. cbn [String.length]. lia.
Qed.

Lemma range_from_app (s1 s2 : string) : forall skip,
  ValidString_from skip s1 = true ->
  (skip <= String.length s1)%nat ->
  range_from skip (s1 ++ s2) = (range_from skip s1 ++ range s2)%list.
Proof.
  induction s1 as [|b s1 IH]; intros skip Hv Hk.
  - cbn [String.length] in Hk. replace skip with 0%nat by lia. reflexivity.
  - cbn [append]. destruct skip as [|k].
    + rewrite !range_from_0. cbn [ValidString_from] in Hv.
      pose proof (decoderune_decoded b s1) as Hd.
      destruct (decoderune (String b s1)) as [r w] eqn:E.
      cbn [fst snd] in *.
      apply andb_true_iff in Hv as [Hstep Hv].
      assert (HasPrefix (String b s1) (encoded r) = true) as Hp.
      { apply (decoded_encoded _ _ _ Hd). intros b0 s0 [= <- <-].
        apply orb_true_iff in Hstep as [Hstep|Hstep].
        - left. unfold RuneSelf in Hstep. lia.
        - right. now apply Nat.ltb_lt in Hstep. }
      pose proof (decoded_scalar _ _ _ Hd) as Hr.
      pose proof (decoderune_encoded_width _ r Hr Hp) as E1.
      pose proof (decoderune_encoded_width _ r Hr
                    (HasPrefix_app (String b s1) s2 _ Hp)) as E2.
      cbn [append] in E2. rewrite E2. rewrite E in E1.
      injection E1 as Ew. rewrite <- Ew. cbn [fst snd app].
      f_equal. apply (IH _ Hv).
      apply conts_length, (decoded_conts _ _ _ _ Hd).
    + rewrite !range_from_skip. cbn [ValidString_from String.length] in *.
      apply (IH _ Hv). lia.
Qed.

(** X16: after a prefix of valid UTF-8 the loop of [containsOnly] starts
    afresh: the test of a concatenation is the conjunction of the tests of
    its parts. *)
Theorem containsOnly_app (s1 s2 chars : string) :
  ValidString s1 = true ->
  containsOnly (s1 ++ s2) chars
  = containsOnly s1 chars && containsOnly s2 chars.
Proof.
  intros Hv. unfold containsOnly, range.
  rewrite (range_from_app s1 s2 0 Hv) by lia.
  apply containsOnly_loop_app.
Qed.

Lemma containsOnly_app_witness :
  containsOnly ("é" ++ "12") ".?0123456789é"
  = containsOnly "é" ".?0123456789é" && containsOnly "12" ".?0123456789é".
Proof.
  apply (containsOnly_app "é" "12" ".?0123456789é"). reflexivity.
Defined.

(** A cut inside a character changes the test: the two halves of [é] are
    invalid bytes, [é] is a character. *)
Example containsOnly_cut_inside :
  let half1 := String (ascii_of_nat 195) EmptyString in
  let half2 := String (ascii_of_nat 169) EmptyString in
  containsOnly (half1 ++ half2) "é" = true
  /\ containsOnly half1 "é" = false
  /\ containsOnly half2 "é" = false.
Proof. repeat split. Qed.

(** ** What a result or an error tells *)

(** X17: the Disambiguator returns a string only for a reading whose
    characters are all in the alphabet, and that string is the text of the
    gateway's response to the resolution request; its error is the
    invalid-input error for a reading with a character outside the
    alphabet, and the gateway's failure wrapped as [failed to generate:
    ...] otherwise. *)
Theorem guess_outcomes w s st :
  (forall txt st',
      guessAmbiouousDigits w s st = (Ok txt, st') ->
      Forall in_alphabet (range s)
      /\ exists resp,
           genkit_Generate w (resolutionRequest (client st) s) = Ok resp
           /\ txt = Text resp)
  /\ (forall e st',
        guessAmbiouousDigits w s st = (Err e, st') ->
        (Exists (fun c => ~ in_alphabet c) (range s)
         /\ e = "ambious value string, " ++ s ++ " is not valid"
         /\ st' = st)
        \/ (Forall in_alphabet (range s)
            /\ exists cause,
                 genkit_Generate w (resolutionRequest (client st) s)
                 = Err cause
                 /\ e = "failed to generate: " ++ cause)).
Proof.
  destruct (containsOnly s alphabet) eqn:Hv.
  - rewrite (guess_called w s st Hv).
    apply containsOnly_alphabet in Hv.
    destruct (genkit_Generate w (resolutionRequest (client st) s))
      as [resp|cause]; split; intros x st' H; try discriminate H;
      injection H as <- _.
    + split; [exact Hv|]. now exists resp.
    + right. split; [exact Hv|]. exists cause. split; [reflexivity|].
      apply ResolutionInferenceFailed_message.
  - rewrite (guess_invalid w s st Hv).
    apply containsOnly_alphabet_false in Hv.
    split; intros x st' H; [discriminate H|].
    injection H as <- <-. left. auto.
Qed.

Lemma guess_outcomes_witness :
  Forall in_alphabet (range "12?.5")
  /\ exists resp,
       genkit_Generate
         (scripted (Ok (extracted "12?.5")) (Ok {| Text := "128.5" |})
                   (Ok tt))
         (resolutionRequest (client sampleState) "12?.5") = Ok resp
       /\ "128.5" = Text resp.
Proof.
  apply (proj1 (guess_outcomes
                  (scripted (Ok (extracted "12?.5"))
                            (Ok {| Text := "128.5" |}) (Ok tt))
                  "12?.5" sampleState)
               "128.5"
               (advance sampleState sampleClient 0
                  [EvGenerate (resolutionRequest sampleClient "12?.5")])).
  reflexivity.
Defined.

(** X18: a successful run tells that the upload and the extraction
    succeeded, and its reading is either the extracted one, which has no
    [?], or, for an extracted reading with [?] and all characters in the
    alphabet, the text of the gateway's response to the resolution
    request. *)
Theorem success_tells w jpg st res st' :
  ReadGasGuagePic w jpg st = (Ok res, st') ->
  exists file out,
    Files_Upload w jpg uploadConfig = Ok file
    /\ genkit_GenerateData w (extractionRequest (client st) file) = Ok out
    /\ (Contains (Read out) "?" = false /\ Read res = Read out
        \/ Contains (Read out) "?" = true
           /\ Forall in_alphabet (range (Read out))
           /\ exists resp,
                genkit_Generate w (resolutionRequest (client st) (Read out))
                = Ok resp
                /\ Read res = Text resp).
Proof.
  intros Hrun. run_cases w jpg st Hrun.
  - exists file, out. auto.
  - exists file, out. split; [assumption|]. split; [assumption|].
    right. split; [assumption|].
    split; [now apply containsOnly_alphabet|].
    now exists resp.
Qed.

Lemma success_tells_witness :
  exists file out,
    Files_Upload
      (scripted (Ok (extracted "100.2")) (Ok {| Text := "128.5" |}) (Ok tt))
      "JPG" uploadConfig = Ok file
    /\ genkit_GenerateData
         (scripted (Ok (extracted "100.2")) (Ok {| Text := "128.5" |})
                   (Ok tt))
         (extractionRequest (client sampleState) file) = Ok out
    /\ (Contains (Read out) "?" = false
        /\ Read {| Read := "100.2"; Date := "2024-01-01"; ReadAt := 2000;
                   ItTakes := "1µs" |} = Read out
        \/ Contains (Read out) "?" = true
           /\ Forall in_alphabet (range (Read out))
           /\ exists resp,
                genkit_Generate
                  (scripted (Ok (extracted "100.2"))
                            (Ok {| Text := "128.5" |}) (Ok tt))
                  (resolutionRequest (client sampleState) (Read out))
                = Ok resp
                /\ Read {| Read := "100.2"; Date := "2024-01-01";
                           ReadAt := 2000; ItTakes := "1µs" |}
                   = Text resp).
Proof.
  refine (success_tells
            (scripted (Ok (extracted "100.2")) (Ok {| Text := "128.5" |})
                      (Ok tt))
            "JPG" sampleState
            {| Read := "100.2"; Date := "2024-01-01"; ReadAt := 2000;
               ItTakes := "1µs" |}
            (advance sampleState (set_lastRead sampleClient "100.2") 3
               [EvUpload "JPG" uploadConfig;
                EvGenerateData (extractionRequest sampleClient sampleFile);
                EvSetLastRead "100.2";
                EvDelete "files/gauge"]) _).
  vm_compute. reflexivity.
Defined.

Lemma HasPrefix_app_refl (p x : string) : HasPrefix (p ++ x) p = true.
Proof. apply HasPrefix_app, HasPrefix_refl. Qed.

(** X19: a run returns an error exactly when one of its stages fails,
    and the message names that stage: it starts with [failed to upload: ]
    exactly when the upload failed, with [failed to analyze: ] exactly
    when the extraction request for the staged file failed, and with
    [failed to guess ambiguous digits: ] exactly when the extracted
    reading had a [?] and was rejected or could not be resolved. *)
Theorem error_names_the_stage w jpg st :
  (staging_fails w jpg \/ extraction_fails w jpg (client st)
   \/ disambiguation_fails w jpg (client st)
   <-> exists e, fst (ReadGasGuagePic w jpg st) = Err e)
  /\ forall e,
       fst (ReadGasGuagePic w jpg st) = Err e ->
       (HasPrefix e "failed to upload: " = true <-> staging_fails w jpg)
       /\ (HasPrefix e "failed to analyze: " = true
           <-> extraction_fails w jpg (client st))
       /\ (HasPrefix e "failed to guess ambiguous digits: " = true
           <-> disambiguation_fails w jpg (client st)).
Proof.
  assert (staging_fails w jpg -> extraction_fails w jpg (client st) -> False)
    as Hse.
  { intros [e1 H1] (f & e2 & H2 & _). congruence. }
  assert (staging_fails w jpg -> disambiguation_fails w jpg (client st)
          -> False) as Hsd.
  { intros [e1 H1] (f & o & H2 & _). congruence. }
  assert (extraction_fails w jpg (client st)
          -> disambiguation_fails w jpg (client st) -> False) as Hed.
  { intros (f1 & e1 & H1 & H1') (f2 & o & H2 & H2' & _).
    rewrite H1 in H2. injection H2 as <-. congruence. }
  destruct (run_outcome w jpg st) as
    [e0 Hu|file e0 Hu Hg|file out Hu Hg Hm|file out Hu Hg Hm Hv
     |file out e0 Hu Hg Hm Hv Hr|file out resp Hu Hg Hm Hv Hr];
    cbn [fst].
  - assert (staging_fails w jpg) as Hs by (now exists e0).
    split; [split; eauto|].
    intros e [= <-]. rewrite StagingFailed_message.
    split; [split; [auto|intros; apply HasPrefix_app_refl]|].
    split; (split; [discriminate|intros; exfalso; eauto]).
  - assert (extraction_fails w jpg (client st)) as Hs
        by (now exists file, e0).
    split; [split; eauto|].
    intros e [= <-]. rewrite InferenceFailed_message.
    split; [split; [discriminate|intros; exfalso; eauto]|].
    split; [split; [auto|intros; apply HasPrefix_app_refl]|].
    split; [discriminate|intros; exfalso; eauto].
  - split; [|intros e [=]].
    split; [|intros [e [=]]].
    intros [[e1 H1]|[(f & e1 & H1 & H2)|(f & o & H1 & H2 & H3 & _)]];
      exfalso.
    + congruence.
    + rewrite Hu in H1. injection H1 as <-. congruence.
    + rewrite Hu in H1. injection H1 as <-.
      rewrite Hg in H2. injection H2 as <-. congruence.
  - assert (disambiguation_fails w jpg (client st)) as Hs.
    { exists file, out. repeat (split; [assumption|]). left.
      now rewrite <- containsOnly_alphabet, Hv. }
    split; [split; eauto|].
    intros e [= <-]. rewrite DisambiguationFailed_message.
    split; [split; [discriminate|intros; exfalso; eauto]|].
    split; [split; [discriminate|intros; exfalso; eauto]|].
    split; [auto|intros; apply HasPrefix_app_refl].
  - assert (disambiguation_fails w jpg (client st)) as Hs.
    { exists file, out. repeat (split; [assumption|]). right.
      now exists e0. }
    split; [split; eauto|].
    intros e [= <-]. rewrite DisambiguationFailed_message.
    split; [split; [discriminate|intros; exfalso; eauto]|].
    split; [split; [discriminate|intros; exfalso; eauto]|].
    split; [auto|intros; apply HasPrefix_app_refl].
  - split; [|intros e [=]].
    split; [|intros [e [=]]].
    intros [[e1 H1]|[(f & e1 & H1 & H2)|(f & o & H1 & H2 & H3 & H4)]];
      exfalso.
    + congruence.
    + rewrite Hu in H1. injection H1 as <-. congruence.
    + rewrite Hu in H1. injection H1 as <-.
      rewrite Hg in H2. injection H2 as <-.
      destruct H4 as [H4|[e1 H4]]; [|congruence].
      apply H4. now apply containsOnly_alphabet.
Qed.

